(** * FreeD capture: packet decoder, checksum and frame conversion

    A shallow embedding of [blackhole/device_capture/freed_capture.py].

    - A Python [bytes] value is a [list byte]; iterating it yields the
      integers [0..255] ([byte_int]).
    - A Python [int] is a [Z].
    - A Python [float] is an IEEE 754 binary64 number, taken from the
      standard library's executable specification ([spec_float] with
      [prec = 53] and [emax = 1024], round to nearest even).
    - Exceptions are explicit: [result A] is either [Ok a] or [Raise e].
    - Logging and calls are recorded in a trace, so that what a function
      invokes can be stated ([M A] is a writer monad over [result]). *)

From Stdlib Require Import String ZArith QArith Qpower Qfield List Lia Bool.
From Stdlib Require Import Strings.Byte.
From Stdlib Require Import Sorting.Permutation.
From Stdlib Require Import Floats.SpecFloat.
Import ListNotations.

Local Open Scope Z_scope.

(** ** Bytes and integers *)

(** The integer a byte holds, as Python yields it when iterating [bytes]. *)
Definition byte_int (b : byte) : Z := Z.of_N (Byte.to_N b).

(** [int.from_bytes(raw, byteorder='big')], unsigned. *)
Definition int_from_bytes_unsigned (raw : list byte) : Z :=
  fold_left (fun acc b => acc * 256 + byte_int b) raw 0.

(** [int.from_bytes(raw, byteorder='big', signed=signed)]: in the signed
    reading the top bit of the whole field is the sign bit, and the value
    is the unsigned one minus [2^(8*len)] when it is set. *)
Definition int_from_bytes (raw : list byte) (signed : bool) : Z :=
  let u := int_from_bytes_unsigned raw in
  let nbits := 8 * Z.of_nat (length raw) in
  if signed && Z.testbit u (nbits - 1) then u - 2 ^ nbits else u.

(** ** Exceptions *)

Inductive exn : Type :=
| AttributeError
| StructError
| ValueError
| OverflowError
| ZeroDivisionError.

Inductive result (A : Type) : Type :=
| Ok (a : A)
| Raise (e : exn).
Arguments Ok {A} a.
Arguments Raise {A} e.

(** ** Floats *)

Definition float : Type := spec_float.

Definition prec : Z := 53.
Definition emax : Z := 1024.

(** [float(n)] for an [int]: the nearest binary64, OverflowError when the
    integer is too large. *)
Definition py_float (n : Z) : result float :=
  match binary_normalize prec emax n 0 false with
  | S754_infinity _ => Raise OverflowError
  | x => Ok x
  end.

Definition float_is_zero (x : float) : bool :=
  match x with
  | S754_zero _ => true
  | _ => false
  end.

(** [x / y] on floats. *)
Definition float_truediv (x y : float) : result float :=
  if float_is_zero y then Raise ZeroDivisionError
  else Ok (SFdiv prec emax x y).

(** [n / y] for an [int] n and a [float] y: the integer is converted first. *)
Definition int_truediv_float (n : Z) (y : float) : result float :=
  match py_float n with
  | Ok x => float_truediv x y
  | Raise e => Raise e
  end.

(** [x + n] for a [float] x and an [int] n. *)
Definition float_add_int (x : float) (n : Z) : result float :=
  match py_float n with
  | Ok y => Ok (SFadd prec emax x y)
  | Raise e => Raise e
  end.

(** [-x]. *)
Definition float_neg (x : float) : float := SFopp x.

(** [1 << k]. *)
Definition py_lshift (n k : Z) : result Z :=
  if k <? 0 then Raise ValueError else Ok (Z.shiftl n k).

(** The rational number a float stands for; [None] for infinities and NaN. *)
Definition float_value (x : float) : option Q :=
  match x with
  | S754_zero _ => Some (0 # 1)%Q
  | S754_finite s m e =>
      Some (inject_Z (cond_Zopp s (Zpos m)) * Qpower (2 # 1) e)%Q
  | _ => None
  end.

(** [2^52], the mantissa of a power of two. *)
Definition two52 : positive := Eval vm_compute in Pos.iter xO 1%positive 52.

(** The float literals of the source. *)
Definition float_10_0 : float := Eval vm_compute in binary_normalize prec emax 10 0 false.

(** [float(n)] of an integer followed by a division by [2^f], when neither
    step raises: the value [getFreeDFloat] computes from the integer. *)
Definition fixed_point (n f : Z) : float :=
  SFdiv prec emax (binary_normalize prec emax n 0 false)
                  (binary_normalize prec emax (Z.shiftl 1 f) 0 false).

(** ** The packet object

    [FreeDPacket.__init__] assigns the attributes one after the other and
    nothing between the first and the last assignment can leave the
    constructor, so an instance that reaches a caller has either none of
    the attributes ([NoAttrs], after the early return) or all of them. *)

Definition FREED_PACKET_SIZE : nat := 29.

Record PacketAttrs : Type := mkAttrs {
  packetBytes : list byte;
  cam_id : Z;
  rot_pan : float;
  rot_tilt : float;
  rot_roll : float;
  pos_x : float;
  pos_y : float;
  pos_z : float;
  zoom : Z;
  focus : Z;
  spare : Z;
  checksum : Z
}.

Inductive FreeDPacket : Type :=
| NoAttrs
| Attrs (a : PacketAttrs).

(** Reading an attribute of an instance. *)
Definition getattr {A : Type} (self : FreeDPacket) (field : PacketAttrs -> A) : result A :=
  match self with
  | NoAttrs => Raise AttributeError
  | Attrs a => Ok (field a)
  end.

(** ** Traces *)

Inductive event : Type :=
| Call_FreeDPacket (packetData : list byte)
| Call_getFreeDFloat (rawBytes : list byte) (fractionalByteSize : Z)
| Logger_error (msg : string)
| Logger_info (obj : FreeDPacket).

Definition M (A : Type) : Type := (list event * result A)%type.

Definition ret {A : Type} (a : A) : M A := ([], Ok a).

Definition bind {A B : Type} (m : M A) (k : A -> M B) : M B :=
  match m with
  | (t, Ok a) => let (t', r) := k a in (t ++ t', r)
  | (t, Raise e) => (t, Raise e)
  end.

Definition tell (ev : event) : M unit := ([ev], Ok tt).

Definition lift {A : Type} (r : result A) : M A := ([], r).

Definition bind_result {A B : Type} (r : result A) (k : A -> result B) : result B :=
  match r with
  | Ok a => k a
  | Raise e => Raise e
  end.

Declare Scope trace_scope.
Delimit Scope trace_scope with trace.
Notation "x <- m ;; k" := (bind m (fun x => k))
  (at level 61, m at next level, right associativity) : trace_scope.
Notation "m ;; k" := (bind m (fun _ => k))
  (at level 61, right associativity) : trace_scope.

Declare Scope result_scope.
Delimit Scope result_scope with result.
Notation "x <- r ;; k" := (bind_result r (fun x => k))
  (at level 61, r at next level, right associativity) : result_scope.

(** ** [struct.unpack] *)

(** The field widths of the format ['!cc3s3s3s3s3s3s3s3s2sc']. *)
Definition packet_format : list nat := [1; 1; 3; 3; 3; 3; 3; 3; 3; 3; 2; 1]%nat.

Fixpoint split_fields (fmt : list nat) (data : list byte) : list (list byte) :=
  match fmt with
  | [] => []
  | w :: fmt' => firstn w data :: split_fields fmt' (skipn w data)
  end.

Definition struct_unpack (fmt : list nat) (data : list byte) : result (list (list byte)) :=
  if Nat.eqb (length data) (list_sum fmt) then Ok (split_fields fmt data)
  else Raise StructError.

(** ** The methods of [FreeDPacket] *)

Definition getFreeDFloat (rawBytes : list byte) (fractionalByteSize : Z) : M float :=
  (tell (Call_getFreeDFloat rawBytes fractionalByteSize) ;;
   let nonFractional := int_from_bytes rawBytes true in
   shifted <- lift (py_lshift 1 fractionalByteSize) ;;
   divisor <- lift (py_float shifted) ;;
   fractional <- lift (int_truediv_float nonFractional divisor) ;;
   ret fractional)%trace.

Definition FreeDPacket_init (packetData : list byte) : M FreeDPacket :=
  (tell (Call_FreeDPacket packetData) ;;
   if negb (Nat.eqb (length packetData) FREED_PACKET_SIZE) then
     tell (Logger_error "FreeD camera transform packet must contain 29 bytes.") ;;
     ret NoAttrs
   else
     fields <- lift (struct_unpack packet_format packetData) ;;
     match fields with
     | [message_type_byte; camera_id_byte; pan_bytes; tilt_bytes; roll_bytes;
        x_bytes; y_bytes; z_bytes; zoom_byte; focus_byte; spare_bytes;
        checksum_byte] =>
         let cam_id := int_from_bytes camera_id_byte false in
         rot_pan <- getFreeDFloat pan_bytes 15 ;;
         rot_tilt <- getFreeDFloat tilt_bytes 15 ;;
         rot_roll <- getFreeDFloat roll_bytes 15 ;;
         pos_x <- getFreeDFloat x_bytes 6 ;;
         pos_y <- getFreeDFloat y_bytes 6 ;;
         pos_z <- getFreeDFloat z_bytes 6 ;;
         let zoom := int_from_bytes zoom_byte false in
         let focus := int_from_bytes focus_byte false in
         let spare := int_from_bytes spare_bytes false in
         let checksum := int_from_bytes checksum_byte false in
         ret (Attrs (mkAttrs packetData cam_id rot_pan rot_tilt rot_roll
                             pos_x pos_y pos_z zoom focus spare checksum))
     | _ => lift (Raise ValueError)
     end)%trace.

(** The loop of [checksumValid]: [sum = (sum - byte) & 0x3] for every byte. *)
Definition checksum_loop (bytes : list byte) (sum : Z) : Z :=
  fold_left (fun sum b => Z.land (sum - byte_int b) 0x3) bytes sum.

Definition checksumValid (self : FreeDPacket) : result bool :=
  (bytes <- getattr self packetBytes ;;
   Ok (checksum_loop bytes 0x40 =? 0))%result.

(** ** The capture thread *)

(** The keys of the frame dictionary: the constants of [blackhole.constants]
    that [packageFrameData] uses, one constructor per constant. *)
Inductive tracking_key : Type :=
| TRACKING_X
| TRACKING_Y
| TRACKING_Z
| TRACKING_PITCH
| TRACKING_YAW
| TRACKING_ROLL
| TRACKING_TIMECODE_KEY.

Definition tracking_key_eqb (k1 k2 : tracking_key) : bool :=
  match k1, k2 with
  | TRACKING_X, TRACKING_X
  | TRACKING_Y, TRACKING_Y
  | TRACKING_Z, TRACKING_Z
  | TRACKING_PITCH, TRACKING_PITCH
  | TRACKING_YAW, TRACKING_YAW
  | TRACKING_ROLL, TRACKING_ROLL
  | TRACKING_TIMECODE_KEY, TRACKING_TIMECODE_KEY => true
  | _, _ => false
  end.

Fixpoint bytes_eqb (x y : list byte) : bool :=
  match x, y with
  | [], [] => true
  | a :: x', b :: y' => Byte.eqb a b && bytes_eqb x' y'
  | _, _ => false
  end.

Section CaptureThread.

(** [blackhole.database_utils.getSystemTimecodeAsFrames] is not part of
    the source at hand: it reads the system clock and is taken as a
    parameter, a function of the clock reading and of the frame rate. *)
Variables (Clock FrameRate Timecode : Type).
Variable getSystemTimecodeAsFrames : Clock -> FrameRate -> Timecode.

(** What the frame dictionary holds. *)
Inductive value : Type :=
| VFloat (x : float)
| VTimecode (t : Timecode).

(** A Python [dict], in insertion order. *)
Definition dict : Type := list (tracking_key * value).

Fixpoint dict_set (d : dict) (k : tracking_key) (v : value) : dict :=
  match d with
  | [] => [(k, v)]
  | (k', v') :: d' =>
      if tracking_key_eqb k' k then (k', v) :: d'
      else (k', v') :: dict_set d' k v
  end.

Fixpoint dict_get (d : dict) (k : tracking_key) : option value :=
  match d with
  | [] => None
  | (k', v) :: d' => if tracking_key_eqb k' k then Some v else dict_get d' k
  end.

Record FreeDCaptureThread : Type := mkThread {
  frameRate : FrameRate;
  capturedTrackingData : list dict
}.

Definition packet_size (self : FreeDCaptureThread) : nat := FREED_PACKET_SIZE.

Definition packageFrameData (self : FreeDCaptureThread) (now : Clock)
    (packet : FreeDPacket) : result dict :=
  (let data := [] in
   y <- getattr packet pos_y ;;
   tx <- float_truediv y float_10_0 ;;
   let data := dict_set data TRACKING_X (VFloat tx) in
   z <- getattr packet pos_z ;;
   ty <- float_truediv z float_10_0 ;;
   let data := dict_set data TRACKING_Y (VFloat ty) in
   x <- getattr packet pos_x ;;
   tz <- float_truediv x float_10_0 ;;
   let data := dict_set data TRACKING_Z (VFloat tz) in
   tilt <- getattr packet rot_tilt ;;
   let data := dict_set data TRACKING_PITCH (VFloat tilt) in
   pan <- getattr packet rot_pan ;;
   s <- float_add_int pan 90 ;;
   let data := dict_set data TRACKING_YAW (VFloat (float_neg s)) in
   roll <- getattr packet rot_roll ;;
   let data := dict_set data TRACKING_ROLL (VFloat roll) in
   let data := dict_set data TRACKING_TIMECODE_KEY
                 (VTimecode (getSystemTimecodeAsFrames now (frameRate self))) in
   Ok data)%result.

Definition parsePacket (self : FreeDCaptureThread) (packetBytes : list byte)
    : M (option FreeDPacket) :=
  (if bytes_eqb (firstn 1 packetBytes) [Byte.xd1] then
     transformPacketObject <- FreeDPacket_init packetBytes ;;
     tell (Logger_info transformPacketObject) ;;
     ret (Some transformPacketObject)
   else
     ret None)%trace.

Definition validateParsedData (self : FreeDCaptureThread)
    (parsedPacket : option FreeDPacket) : result bool :=
  match parsedPacket with
  | None => Ok false
  | Some p => checksumValid p
  end.

Definition cacheParsedData (self : FreeDCaptureThread) (now : Clock)
    (parsedPacket : FreeDPacket) : result FreeDCaptureThread :=
  (transformData <- packageFrameData self now parsedPacket ;;
   Ok (mkThread (frameRate self)
                (capturedTrackingData self ++ [transformData])))%result.

End CaptureThread.

Arguments VFloat {Timecode} x.
Arguments VTimecode {Timecode} t.
Arguments dict_get {Timecode} d k.
Arguments dict_set {Timecode} d k v.
Arguments frameRate {FrameRate Timecode} _.
Arguments capturedTrackingData {FrameRate Timecode} _.
Arguments mkThread {FrameRate Timecode} _ _.
Arguments packageFrameData {Clock FrameRate Timecode} _ _ _ _.
Arguments parsePacket {FrameRate Timecode} _ _.
Arguments validateParsedData {FrameRate Timecode} _ _.
Arguments cacheParsedData {Clock FrameRate Timecode} _ _ _ _.

(** ** Definitions that follow the specification's words *)

(** The byte holding [z] modulo 256. *)
Definition byte_of_Z (z : Z) : byte :=
  match Byte.of_N (Z.to_N (z mod 256)) with
  | Some b => b
  | None => Byte.x00
  end.

(** A 3-byte field read as a big-endian two's-complement 24-bit integer:
    the unsigned value, minus [2^24] when bit 23 is set. *)
Definition be24_signed (b0 b1 b2 : byte) : Z :=
  let u := byte_int b0 * 65536 + byte_int b1 * 256 + byte_int b2 in
  if u <? 2 ^ 23 then u else u - 2 ^ 24.

(** The sign read off each byte separately, which the decoder must not do. *)
Definition bytewise_signed (b0 b1 b2 : byte) : Z :=
  let s b := if byte_int b <? 128 then byte_int b else byte_int b - 256 in
  s b0 * 65536 + s b1 * 256 + s b2.

(** The 3-byte field that starts at offset [off] of a frame. *)
Definition field24 (frame : list byte) (off : nat) : Z :=
  be24_signed (nth off frame Byte.x00) (nth (off + 1) frame Byte.x00)
              (nth (off + 2) frame Byte.x00).

(** The float [x] stands for exactly the integer [n] divided by [2^f]. *)
Definition represents (x : float) (n f : Z) : Prop :=
  exists q, float_value x = Some q /\ (q == inject_Z n / inject_Z (2 ^ f))%Q.

(** The float [x] stands for a number in the interval [[lo, hi)]. *)
Definition within (x : float) (lo hi : Z) : Prop :=
  exists q, float_value x = Some q /\ (inject_Z lo <= q)%Q /\ (q < inject_Z hi)%Q.

(** The float of an integer literal: [float_of_Z 200] is [200.0]. *)
Definition float_of_Z (n : Z) : float := binary_normalize prec emax n 0 false.

(** [n] written as 3 big-endian two's-complement bytes. *)
Definition encode24 (n : Z) : list byte :=
  [byte_of_Z (n / 65536); byte_of_Z (n / 256); byte_of_Z n].

(** The checksum as the specification words it: an accumulator that starts
    at [0x40]; each byte is subtracted and the accumulator masked to its
    low 2 bits. *)
Fixpoint spec_accumulate (acc : Z) (frame : list byte) : Z :=
  match frame with
  | [] => acc
  | b :: rest => spec_accumulate (Z.land (acc - byte_int b) 0x3) rest
  end.

Definition spec_checksum_valid (frame : list byte) : bool :=
  spec_accumulate 0x40 frame =? 0.

Definition bytes_sum (frame : list byte) : Z :=
  fold_right (fun b acc => byte_int b + acc) 0 frame.

(** Two bytes with the same two least-significant bits. *)
Definition same_low2 (a b : byte) : Prop :=
  Z.land (byte_int a) 3 = Z.land (byte_int b) 3.

(** ** A concrete clock

    Modelled from the spec: [getSystemTimecodeAsFrames], the "system
    timecode as frames at a given frame rate", an integer frame count
    derived from the system clock and a configured frame rate; here the
    clock reads whole seconds. *)
Definition seconds_as_frames (now frame_rate : Z) : Z := now * frame_rate.

Definition bytes_of (l : list Z) : list byte := map byte_of_Z l.

(** A frame whose pan, tilt, roll are 10, 20, 30 degrees and whose
    position is (1000, 2000, 3000) mm. *)
Definition sample_frame : list byte :=
  bytes_of [0xD1; 0x01;
            0x05; 0x00; 0x00;  0x0A; 0x00; 0x00;  0x0F; 0x00; 0x00;
            0x00; 0xFA; 0x00;  0x01; 0xF4; 0x00;  0x02; 0xEE; 0x00;
            0x00; 0x00; 0x00;  0x00; 0x00; 0x00;  0x00; 0x00; 0x71].

(** [sample_frame] with bits 2 to 7 of several bytes changed in transit. *)
Definition corrupted_frame : list byte :=
  bytes_of [0xD1; 0x01;
            0xF5; 0x00; 0x04;  0x0A; 0x80; 0x00;  0x0F; 0x00; 0x00;
            0x00; 0xFA; 0x00;  0x01; 0xF4; 0x00;  0x02; 0x12; 0x00;
            0x00; 0x00; 0x00;  0x00; 0x00; 0xFC;  0x00; 0x00; 0x71].

(** A 28-byte buffer that starts with the sync byte. *)
Definition short_frame : list byte := firstn 28 sample_frame.

(** A 29-byte frame whose pan and y fields are [0x800000] and whose tilt
    and x fields are [0x7FFFFF]. *)
Definition extreme_frame : list byte :=
  bytes_of [0xD1; 0x01;
            0x80; 0x00; 0x00;  0x7F; 0xFF; 0xFF;  0x00; 0x00; 0x00;
            0x7F; 0xFF; 0xFF;  0x80; 0x00; 0x00;  0x00; 0x00; 0x00;
            0x00; 0x00; 0x00;  0x00; 0x00; 0x00;  0x00; 0x00; 0x00].

(** A 29-byte buffer that does not start with the sync byte. *)
Definition foreign_frame : list byte := Byte.x00 :: skipn 1 sample_frame.

(** A capture thread at 24 frames per second with nothing captured yet. *)
Definition sample_thread : FreeDCaptureThread Z Z := mkThread 24 [].

(** Two calls of [checksumValid] on the same instance, one after the other. *)
Definition checksumValid_twice (self : FreeDPacket) : result (bool * bool) :=
  (first <- checksumValid self ;;
   second <- checksumValid self ;;
   Ok (first, second))%result.

(** The checksum byte of a FreeD packet as the docstring of
    [checksumValid] describes it: every byte of the body subtracted from
    [0x40], modulo 256. *)
Definition freed_checksum (body : list byte) : byte :=
  byte_of_Z (0x40 - bytes_sum body).

(** A big-endian unsigned field of a frame: [width] bytes from offset [off]. *)
Fixpoint field_unsigned (frame : list byte) (off width : nat) : Z :=
  match width with
  | O => 0
  | S w => byte_int (nth off frame Byte.x00) * 256 ^ Z.of_nat w
           + field_unsigned frame (S off) w
  end.

(** The binary64 number [n * 2^e] written with a 53-bit mantissa, for an
    integer [n] of fewer than 53 bits. *)
Definition normal_form (n e : Z) : float :=
  match n with
  | Z0 => S754_zero false
  | Zpos m =>
      S754_finite false (Pos.iter xO m (53 - digits2_pos m))
                  (Zpos (digits2_pos m) - 53 + e)
  | Zneg m =>
      S754_finite true (Pos.iter xO m (53 - digits2_pos m))
                  (Zpos (digits2_pos m) - 53 + e)
  end.

(** * Properties *)

(** ** Binary64 arithmetic on small integers is exact *)

Lemma digits2_pos_iter_xO (m k : positive) :
  digits2_pos (Pos.iter xO m k) = (digits2_pos m + k)%positive.
Proof.
  induction k as [|k IH] using Pos.peano_ind.
  - simpl. now rewrite Pos.add_1_r.
  - rewrite Pos.iter_succ. simpl. rewrite IH. now rewrite Pos.add_succ_r.
Qed.

Lemma Zpos_iter_xO (m k : positive) :
  Zpos (Pos.iter xO m k) = Zpos m * 2 ^ Zpos k.
Proof.
  induction k as [|k IH] using Pos.peano_ind.
  - simpl. lia.
  - rewrite Pos.iter_succ, Pos2Z.inj_succ, Z.pow_succ_r by lia.
    rewrite Pos2Z.inj_xO, IH. lia.
Qed.

Lemma digits2_pos_lower (m : positive) :
  2 ^ (Zpos (digits2_pos m) - 1) <= Zpos m.
Proof.
  induction m as [m IH|m IH|]; cbn [digits2_pos].
  - rewrite Pos2Z.inj_succ.
    replace (Z.succ (Zpos (digits2_pos m)) - 1) with (Z.succ (Zpos (digits2_pos m) - 1)) by lia.
    rewrite Z.pow_succ_r by lia. lia.
  - rewrite Pos2Z.inj_succ.
    replace (Z.succ (Zpos (digits2_pos m)) - 1) with (Z.succ (Zpos (digits2_pos m) - 1)) by lia.
    rewrite Z.pow_succ_r by lia. lia.
  - simpl. lia.
Qed.

Lemma digits2_pos_small (m : positive) (k : Z) :
  0 <= k -> Zpos m < 2 ^ k -> Zpos (digits2_pos m) <= k.
Proof.
  intros Hk Hm. pose proof (digits2_pos_lower m) as Hl.
  destruct (Z_le_gt_dec (Zpos (digits2_pos m)) k) as [|Hgt]; [assumption|].
  assert (2 ^ k <= 2 ^ (Zpos (digits2_pos m) - 1)) by (apply Z.pow_le_mono_r; lia).
  lia.
Qed.

Lemma fexp_normal (e : Z) : -1021 <= e -> fexp prec emax e = e - 53.
Proof. intros H. unfold fexp, emin, prec, emax. lia. Qed.

Lemma binary_round_aux_exact (s : bool) (M : positive) (e : Z) :
  digits2_pos M = 53%positive -> -1074 <= e <= 971 ->
  binary_round_aux prec emax s (Zpos M) e loc_Exact = S754_finite s M e.
Proof.
  intros HM He.
  unfold binary_round_aux, shr_fexp. cbn [Zdigits2 shr_record_of_loc].
  rewrite HM. rewrite fexp_normal by lia.
  replace (53 + e - 53 - e) with 0 by lia.
  cbn [shr shr_m loc_of_shr_record round_nearest_even Zdigits2].
  rewrite HM. rewrite fexp_normal by lia.
  replace (53 + e - 53 - e) with 0 by lia. cbn [shr shr_m].
  replace (e <=? emax - prec) with true; [reflexivity|].
  symmetry. apply Z.leb_le. unfold emax, prec. lia.
Qed.

Lemma binary_round_small (s : bool) (m : positive) :
  (digits2_pos m < 53)%positive ->
  binary_round prec emax s m 0
  = S754_finite s (Pos.iter xO m (53 - digits2_pos m)) (Zpos (digits2_pos m) - 53).
Proof.
  intros Hd. unfold binary_round, shl_align.
  rewrite Z.add_0_r, fexp_normal by lia. rewrite Z.sub_0_r.
  destruct (Zpos (digits2_pos m) - 53) as [|p|p] eqn:E; try lia.
  assert (p = 53 - digits2_pos m)%positive as -> by lia.
  apply binary_round_aux_exact; [|lia].
  rewrite digits2_pos_iter_xO. lia.
Qed.

Lemma div_eucl_shift (M : positive) :
  Z.div_eucl (Z.shiftl (Zpos M) 53) (Zpos two52) = (Zpos M~0, 0).
Proof.
  rewrite Z.shiftl_mul_pow2 by lia.
  pose proof (Z.div_eucl_eq (Zpos M * 2 ^ 53) (Zpos two52) ltac:(discriminate)) as Heq.
  pose proof (Z.mod_pos_bound (Zpos M * 2 ^ 53) (Zpos two52) ltac:(reflexivity)) as Hb.
  unfold Z.modulo in Hb.
  destruct (Z.div_eucl (Zpos M * 2 ^ 53) (Zpos two52)) as [q r].
  change (2 ^ 53) with (2 * Zpos two52) in Heq.
  assert (q = 2 * Zpos M) by nia.
  assert (r = 0) by nia.
  subst. reflexivity.
Qed.

(** Dividing a normal number by a power of two only moves the exponent. *)
Lemma SFdiv_pow2 (s : bool) (M : positive) (e ey : Z) :
  digits2_pos M = 53%positive ->
  -1021 <= e - ey - 52 <= 971 ->
  SFdiv prec emax (S754_finite s M e) (S754_finite false two52 ey)
  = S754_finite s M (e - ey - 52).
Proof.
  intros HM He.
  unfold SFdiv, SFdiv_core_binary. cbn [Zdigits2]. rewrite HM.
  change (Z.pos (digits2_pos two52)) with 53.
  rewrite fexp_normal by lia.
  replace (Z.min (53 + e - (53 + ey) - 53) (e - ey)) with (e - ey - 53) by lia.
  replace (e - ey - (e - ey - 53)) with 53 by lia.
  rewrite div_eucl_shift.
  change (new_location (Zpos two52) 0) with loc_Exact.
  rewrite xorb_false_r.
  unfold binary_round_aux, shr_fexp. cbn [Zdigits2 digits2_pos shr_record_of_loc].
  rewrite HM. change (Z.pos (Pos.succ 53)) with 54.
  rewrite fexp_normal by lia.
  replace (54 + (e - ey - 53) - 53 - (e - ey - 53)) with 1 by lia.
  cbn [shr iter_pos shr_1 orb shr_m loc_of_shr_record round_nearest_even
       Zdigits2 shr_record_of_loc].
  rewrite HM. rewrite fexp_normal by lia.
  replace (53 + (e - ey - 53 + 1) - 53 - (e - ey - 53 + 1)) with 0 by lia.
  cbn [shr shr_m].
  replace (e - ey - 53 + 1 <=? emax - prec) with true.
  - f_equal. lia.
  - symmetry. apply Z.leb_le. unfold emax, prec. lia.
Qed.

Lemma Qpower_2_neg (k : Z) :
  0 <= k -> (Qpower (2 # 1) (- k) == / inject_Z (2 ^ k))%Q.
Proof.
  intros Hk. rewrite Qpower_opp. apply Qinv_comp.
  change (2 # 1)%Q with (inject_Z 2). symmetry. now apply Zpower_Qpower.
Qed.

Lemma dyadic_value (s : bool) (m k : positive) (f : Z) :
  0 <= f ->
  (inject_Z (cond_Zopp s (Zpos (Pos.iter xO m k))) * Qpower (2 # 1) (- Zpos k - f)
   == inject_Z (cond_Zopp s (Zpos m)) / inject_Z (2 ^ f))%Q.
Proof.
  intros Hf.
  replace (- Zpos k - f) with (- (Zpos k + f)) by lia.
  rewrite Qpower_2_neg by lia.
  rewrite Z.pow_add_r by lia.
  assert (cond_Zopp s (Zpos (Pos.iter xO m k)) = cond_Zopp s (Zpos m) * 2 ^ Zpos k) as ->.
  { rewrite Zpos_iter_xO. destruct s; unfold cond_Zopp; lia. }
  rewrite !inject_Z_mult.
  assert (~ inject_Z (2 ^ Zpos k) == 0)%Q.
  { unfold Qeq; simpl. rewrite Z.mul_1_r. pose proof (Z.pow_pos_nonneg 2 (Zpos k)). lia. }
  assert (~ inject_Z (2 ^ f) == 0)%Q.
  { unfold Qeq; simpl. rewrite Z.mul_1_r. pose proof (Z.pow_pos_nonneg 2 f). lia. }
  field. split; assumption.
Qed.

Lemma binary_normalize_small (n : Z) :
  - 2 ^ 52 < n < 2 ^ 52 ->
  binary_normalize prec emax n 0 false
  = match n with
    | Z0 => S754_zero false
    | Zpos m =>
        S754_finite false (Pos.iter xO m (53 - digits2_pos m)) (Zpos (digits2_pos m) - 53)
    | Zneg m =>
        S754_finite true (Pos.iter xO m (53 - digits2_pos m)) (Zpos (digits2_pos m) - 53)
    end.
Proof.
  intros Hn. destruct n as [|m|m]; cbn [binary_normalize]; [reflexivity| |];
    apply binary_round_small;
    pose proof (digits2_pos_small m 52 ltac:(lia) ltac:(lia)); lia.
Qed.

Lemma py_float_small (n : Z) :
  - 2 ^ 52 < n < 2 ^ 52 ->
  py_float n = Ok (binary_normalize prec emax n 0 false).
Proof.
  intros Hn. unfold py_float. rewrite binary_normalize_small by assumption.
  destruct n; reflexivity.
Qed.

Lemma py_float_pow2 (f : Z) :
  f = 15 \/ f = 6 ->
  binary_normalize prec emax (Z.shiftl 1 f) 0 false = S754_finite false two52 (f - 52).
Proof. intros [-> | ->]; reflexivity. Qed.

(** The float computed from a small integer [n] and [f] fractional bits
    stands for exactly [n / 2^f]. *)
Lemma fixed_point_value (n f : Z) :
  - 2 ^ 52 < n < 2 ^ 52 -> f = 15 \/ f = 6 ->
  exists q, float_value (fixed_point n f) = Some q
            /\ (q == inject_Z n / inject_Z (2 ^ f))%Q.
Proof.
  intros Hn Hf. unfold fixed_point.
  rewrite binary_normalize_small, py_float_pow2 by assumption.
  assert (0 <= f) as Hf0 by lia.
  assert (f <= 15) as Hf15 by lia.
  destruct n as [|m|m].
  - exists (0 # 1)%Q. split; [reflexivity|].
    unfold Qdiv. now rewrite Qmult_0_l.
  - pose proof (digits2_pos_small m 52 ltac:(lia) ltac:(lia)) as Hd.
    rewrite SFdiv_pow2; [| rewrite digits2_pos_iter_xO; lia | lia].
    eexists. split; [reflexivity|].
    replace (Zpos (digits2_pos m) - 53 - (f - 52) - 52)
      with (- Zpos (53 - digits2_pos m) - f) by lia.
    now apply (dyadic_value false).
  - pose proof (digits2_pos_small m 52 ltac:(lia) ltac:(lia)) as Hd.
    rewrite SFdiv_pow2; [| rewrite digits2_pos_iter_xO; lia | lia].
    eexists. split; [reflexivity|].
    replace (Zpos (digits2_pos m) - 53 - (f - 52) - 52)
      with (- Zpos (53 - digits2_pos m) - f) by lia.
    now apply (dyadic_value true).
Qed.

(** ** Bytes *)

Lemma byte_int_range (b : byte) : 0 <= byte_int b <= 255.
Proof.
  unfold byte_int. pose proof (Byte.to_N_bounded b). lia.
Qed.

Lemma byte_int_of_Z (z : Z) : byte_int (byte_of_Z z) = z mod 256.
Proof.
  unfold byte_of_Z, byte_int.
  pose proof (Z.mod_pos_bound z 256 ltac:(lia)) as Hb.
  destruct (Byte.of_N (Z.to_N (z mod 256))) as [b|] eqn:E.
  - apply Byte.to_of_N in E. rewrite E. lia.
  - apply Byte.of_N_None_iff in E. lia.
Qed.

Lemma testbit_top (u k : Z) :
  0 <= k -> 0 <= u < 2 ^ (k + 1) -> Z.testbit u k = negb (u <? 2 ^ k).
Proof.
  intros Hk Hu. rewrite Z.pow_add_r, Z.pow_1_r in Hu by lia.
  destruct (Z.ltb_spec u (2 ^ k)) as [Hlt | Hge]; cbn [negb].
  - destruct (Z.eq_dec u 0) as [-> | Hne]; [apply Z.bits_0|].
    apply Z.bits_above_log2; [lia|].
    apply Z.log2_lt_pow2; lia.
  - apply Z.testbit_true; [lia|].
    assert (u / 2 ^ k = 1) as ->; [|reflexivity].
    symmetry. apply (Z.div_unique u (2 ^ k) 1 (u - 2 ^ k)); lia.
Qed.

(** The signed reading of a 3-byte field is the 24-bit two's-complement
    integer. *)
Lemma int_from_bytes_3 (b0 b1 b2 : byte) :
  int_from_bytes [b0; b1; b2] true = be24_signed b0 b1 b2.
Proof.
  unfold int_from_bytes, int_from_bytes_unsigned, be24_signed.
  cbn [fold_left length]. cbn [andb].
  pose proof (byte_int_range b0). pose proof (byte_int_range b1).
  pose proof (byte_int_range b2).
  change (8 * Z.of_nat 3) with 24. change (24 - 1) with 23.
  replace ((0 * 256 + byte_int b0) * 256 + byte_int b1) with
    (byte_int b0 * 256 + byte_int b1) by lia.
  replace ((byte_int b0 * 256 + byte_int b1) * 256 + byte_int b2) with
    (byte_int b0 * 65536 + byte_int b1 * 256 + byte_int b2) by lia.
  rewrite testbit_top by (change (2 ^ (23 + 1)) with 16777216; lia).
  destruct (_ <? 2 ^ 23); reflexivity.
Qed.

Lemma be24_signed_range (b0 b1 b2 : byte) :
  - 2 ^ 23 <= be24_signed b0 b1 b2 < 2 ^ 23.
Proof.
  unfold be24_signed.
  pose proof (byte_int_range b0). pose proof (byte_int_range b1).
  pose proof (byte_int_range b2).
  change (2 ^ 23) with 8388608. change (2 ^ 24) with 16777216.
  destruct (Z.ltb_spec (byte_int b0 * 65536 + byte_int b1 * 256 + byte_int b2) 8388608); lia.
Qed.

(** ** Running the decoder *)

Lemma getFreeDFloat_run (raw : list byte) (f : Z) :
  - 2 ^ 52 < int_from_bytes raw true < 2 ^ 52 -> f = 15 \/ f = 6 ->
  getFreeDFloat raw f
  = ([Call_getFreeDFloat raw f], Ok (fixed_point (int_from_bytes raw true) f)).
Proof.
  intros Hn Hf. unfold getFreeDFloat, int_truediv_float.
  rewrite py_float_small by assumption.
  destruct Hf as [-> | ->]; reflexivity.
Qed.

Lemma getFreeDFloat_run3 (b0 b1 b2 : byte) (f : Z) :
  f = 15 \/ f = 6 ->
  getFreeDFloat [b0; b1; b2] f
  = ([Call_getFreeDFloat [b0; b1; b2] f], Ok (fixed_point (be24_signed b0 b1 b2) f)).
Proof.
  intros Hf. rewrite getFreeDFloat_run by
    (try assumption; rewrite int_from_bytes_3;
     pose proof (be24_signed_range b0 b1 b2);
     change (2 ^ 23) with 8388608 in *; change (2 ^ 52) with 4503599627370496; lia).
  now rewrite int_from_bytes_3.
Qed.

Lemma fixed_point_represents (b0 b1 b2 : byte) (f : Z) :
  f = 15 \/ f = 6 ->
  represents (fixed_point (be24_signed b0 b1 b2) f) (be24_signed b0 b1 b2) f.
Proof.
  intros Hf. apply fixed_point_value; [|assumption].
  pose proof (be24_signed_range b0 b1 b2).
  change (2 ^ 23) with 8388608 in *; change (2 ^ 52) with 4503599627370496; lia.
Qed.

(** What the constructor does on a 29-byte buffer. *)
Lemma FreeDPacket_init_run
    (b0 b1 b2 b3 b4 b5 b6 b7 b8 b9 b10 b11 b12 b13 b14 b15 b16 b17 b18 b19
     b20 b21 b22 b23 b24 b25 b26 b27 b28 : byte) :
  let buf := [b0; b1; b2; b3; b4; b5; b6; b7; b8; b9; b10; b11; b12; b13; b14;
              b15; b16; b17; b18; b19; b20; b21; b22; b23; b24; b25; b26; b27;
              b28] in
  FreeDPacket_init buf
  = ([Call_FreeDPacket buf;
      Call_getFreeDFloat [b2; b3; b4] 15;
      Call_getFreeDFloat [b5; b6; b7] 15;
      Call_getFreeDFloat [b8; b9; b10] 15;
      Call_getFreeDFloat [b11; b12; b13] 6;
      Call_getFreeDFloat [b14; b15; b16] 6;
      Call_getFreeDFloat [b17; b18; b19] 6],
     Ok (Attrs (mkAttrs buf
                  (int_from_bytes [b1] false)
                  (fixed_point (be24_signed b2 b3 b4) 15)
                  (fixed_point (be24_signed b5 b6 b7) 15)
                  (fixed_point (be24_signed b8 b9 b10) 15)
                  (fixed_point (be24_signed b11 b12 b13) 6)
                  (fixed_point (be24_signed b14 b15 b16) 6)
                  (fixed_point (be24_signed b17 b18 b19) 6)
                  (int_from_bytes [b20; b21; b22] false)
                  (int_from_bytes [b23; b24; b25] false)
                  (int_from_bytes [b26; b27] false)
                  (int_from_bytes [b28] false)))).
Proof.
  intros buf. subst buf. unfold FreeDPacket_init.
  cbn [bind tell lift ret length Nat.eqb negb FREED_PACKET_SIZE struct_unpack
       packet_format list_sum fold_right split_fields firstn skipn app Nat.add].
  rewrite !getFreeDFloat_run3 by auto.
  reflexivity.
Qed.

Lemma length_29_inv (buf : list byte) :
  length buf = 29%nat ->
  exists b0 b1 b2 b3 b4 b5 b6 b7 b8 b9 b10 b11 b12 b13 b14 b15 b16 b17 b18 b19
         b20 b21 b22 b23 b24 b25 b26 b27 b28,
    buf = [b0; b1; b2; b3; b4; b5; b6; b7; b8; b9; b10; b11; b12; b13; b14;
           b15; b16; b17; b18; b19; b20; b21; b22; b23; b24; b25; b26; b27; b28].
Proof.
  intros H.
  do 29 (destruct buf as [|? buf]; [discriminate H|]).
  destruct buf; [|discriminate H].
  repeat eexists.
Qed.

Lemma FreeDPacket_init_29 (buf : list byte) :
  length buf = 29%nat ->
  exists a, snd (FreeDPacket_init buf) = Ok (Attrs a) /\ packetBytes a = buf.
Proof.
  intros H. destruct (length_29_inv buf H) as
    (b0 & b1 & b2 & b3 & b4 & b5 & b6 & b7 & b8 & b9 & b10 & b11 & b12 & b13 &
     b14 & b15 & b16 & b17 & b18 & b19 & b20 & b21 & b22 & b23 & b24 & b25 &
     b26 & b27 & b28 & ->).
  rewrite FreeDPacket_init_run. cbn [snd]. eexists. split; reflexivity.
Qed.

(** ** The checksum *)

Lemma checksum_loop_spec (bytes : list byte) (sum : Z) :
  checksum_loop bytes sum = spec_accumulate sum bytes.
Proof.
  revert sum. induction bytes as [|b rest IH]; intros sum; [reflexivity|].
  unfold checksum_loop in *. cbn [fold_left spec_accumulate]. apply IH.
Qed.

Lemma land_3_mod (z : Z) : Z.land z 3 = z mod 4.
Proof. change 3 with (Z.ones 2). now rewrite Z.land_ones by lia. Qed.

(** After at least one byte the accumulator is the start value minus the
    sum of the bytes, modulo 4. *)
Lemma spec_accumulate_mod (frame : list byte) (acc : Z) :
  frame <> [] ->
  spec_accumulate acc frame = (acc - bytes_sum frame) mod 4.
Proof.
  revert acc. induction frame as [|b rest IH]; intros acc Hne; [congruence|].
  cbn [spec_accumulate bytes_sum fold_right]. fold (bytes_sum rest).
  change 0x3 with 3. rewrite land_3_mod.
  destruct rest as [|b' rest'].
  - cbn [spec_accumulate bytes_sum fold_right]. f_equal. lia.
  - rewrite IH by discriminate.
    rewrite Zminus_mod_idemp_l. f_equal. lia.
Qed.

Lemma checksumValid_Attrs (a : PacketAttrs) :
  checksumValid (Attrs a) = Ok (spec_checksum_valid (packetBytes a)).
Proof.
  unfold checksumValid, spec_checksum_valid. cbn [getattr bind_result].
  now rewrite checksum_loop_spec.
Qed.

(** C1: on a packet built from a 29-byte buffer, [checksumValid] returns
    true exactly when the accumulator that starts at 0x40 and, for every
    byte in order, has the byte subtracted and is masked with 0x3, ends at
    0; equivalently, exactly when 0x40 minus the sum of the 29 bytes is
    congruent to 0 modulo 4. *)
Theorem checksumValid_accumulator (buf : list byte) :
  length buf = 29%nat ->
  exists a v,
    snd (FreeDPacket_init buf) = Ok (Attrs a)
    /\ checksumValid (Attrs a) = Ok v
    /\ (v = true <-> spec_accumulate 0x40 buf = 0)
    /\ (v = true <-> (0x40 - bytes_sum buf) mod 4 = 0).
Proof.
  intros H. destruct (FreeDPacket_init_29 buf H) as (a & Ha & Hb).
  exists a, (spec_checksum_valid buf). split; [assumption|].
  split; [rewrite checksumValid_Attrs, Hb; reflexivity|].
  unfold spec_checksum_valid. rewrite Z.eqb_eq.
  split; [reflexivity|].
  rewrite spec_accumulate_mod; [reflexivity|].
  intros ->. discriminate H.
Qed.

Lemma checksumValid_accumulator_witness :
  length sample_frame = 29%nat
  /\ exists a v,
       snd (FreeDPacket_init sample_frame) = Ok (Attrs a)
       /\ checksumValid (Attrs a) = Ok v
       /\ (v = true <-> spec_accumulate 0x40 sample_frame = 0)
       /\ (v = true <-> (0x40 - bytes_sum sample_frame) mod 4 = 0).
Proof.
  split; [reflexivity|].
  apply (checksumValid_accumulator sample_frame). reflexivity.
Defined.

Lemma same_low2_mod (a b : byte) :
  same_low2 a b -> byte_int a mod 4 = byte_int b mod 4.
Proof. unfold same_low2. now rewrite !land_3_mod. Qed.

Lemma bytes_sum_low2 (buf1 buf2 : list byte) :
  Forall2 same_low2 buf1 buf2 -> bytes_sum buf1 mod 4 = bytes_sum buf2 mod 4.
Proof.
  induction 1 as [|a b l1 l2 Hab _ IH]; [reflexivity|].
  cbn [bytes_sum fold_right]. fold (bytes_sum l1) (bytes_sum l2).
  rewrite Z.add_mod, (Z.add_mod (byte_int b)) by lia.
  now rewrite (same_low2_mod a b Hab), IH.
Qed.

(** Adding a multiple of 4 to a byte, modulo 256, keeps its low two bits. *)
Lemma same_low2_add4 (b : byte) (k : Z) :
  same_low2 b (byte_of_Z (byte_int b + 4 * k)).
Proof.
  unfold same_low2. rewrite !land_3_mod, byte_int_of_Z.
  pose proof (byte_int_range b).
  Z.div_mod_to_equations. lia.
Qed.

(** C9: two 29-byte buffers that agree on the two least-significant bits
    of every byte get the same answer from [checksumValid]; a change
    confined to the high six bits of bytes is never detected. *)
Theorem checksumValid_low2_only (buf1 buf2 : list byte) :
  length buf1 = 29%nat ->
  Forall2 same_low2 buf1 buf2 ->
  exists a1 a2,
    snd (FreeDPacket_init buf1) = Ok (Attrs a1)
    /\ snd (FreeDPacket_init buf2) = Ok (Attrs a2)
    /\ checksumValid (Attrs a1) = checksumValid (Attrs a2).
Proof.
  intros H1 H12.
  assert (length buf2 = 29%nat) as H2
    by (rewrite <- H1; symmetry; eapply Forall2_length; eassumption).
  destruct (FreeDPacket_init_29 buf1 H1) as (a1 & Ha1 & Hb1).
  destruct (FreeDPacket_init_29 buf2 H2) as (a2 & Ha2 & Hb2).
  exists a1, a2. repeat split; try assumption.
  rewrite !checksumValid_Attrs, Hb1, Hb2. unfold spec_checksum_valid.
  rewrite !spec_accumulate_mod by (intros ->; discriminate).
  rewrite Zminus_mod, (bytes_sum_low2 buf1 buf2 H12), <- Zminus_mod.
  reflexivity.
Qed.

Lemma checksumValid_low2_only_witness :
  length sample_frame = 29%nat
  /\ Forall2 same_low2 sample_frame corrupted_frame
  /\ exists a1 a2,
       snd (FreeDPacket_init sample_frame) = Ok (Attrs a1)
       /\ snd (FreeDPacket_init corrupted_frame) = Ok (Attrs a2)
       /\ checksumValid (Attrs a1) = checksumValid (Attrs a2).
Proof.
  assert (Forall2 same_low2 sample_frame corrupted_frame) as H
    by (repeat constructor).
  split; [reflexivity|]. split; [exact H|].
  apply (checksumValid_low2_only sample_frame corrupted_frame); [reflexivity | exact H].
Defined.

(** ** The fixed-point fields *)

(** The six fixed-point attributes of a packet built from 29 bytes. *)
Lemma FreeDPacket_init_fields (buf : list byte) :
  length buf = 29%nat ->
  exists a,
    snd (FreeDPacket_init buf) = Ok (Attrs a)
    /\ packetBytes a = buf
    /\ rot_pan a = fixed_point (field24 buf 2) 15
    /\ rot_tilt a = fixed_point (field24 buf 5) 15
    /\ rot_roll a = fixed_point (field24 buf 8) 15
    /\ pos_x a = fixed_point (field24 buf 11) 6
    /\ pos_y a = fixed_point (field24 buf 14) 6
    /\ pos_z a = fixed_point (field24 buf 17) 6.
Proof.
  intros H. destruct (length_29_inv buf H) as
    (b0 & b1 & b2 & b3 & b4 & b5 & b6 & b7 & b8 & b9 & b10 & b11 & b12 & b13 &
     b14 & b15 & b16 & b17 & b18 & b19 & b20 & b21 & b22 & b23 & b24 & b25 &
     b26 & b27 & b28 & ->).
  rewrite FreeDPacket_init_run. cbn [snd]. eexists.
  split; [reflexivity|]. repeat split.
Qed.

Lemma field24_range (buf : list byte) (off : nat) :
  - 2 ^ 23 <= field24 buf off < 2 ^ 23.
Proof. apply be24_signed_range. Qed.

Lemma field24_represents (buf : list byte) (off : nat) (f : Z) :
  f = 15 \/ f = 6 ->
  represents (fixed_point (field24 buf off) f) (field24 buf off) f.
Proof. intros Hf. now apply fixed_point_represents. Qed.

(** C3: [getFreeDFloat] reads a 3-byte field as a big-endian
    two's-complement 24-bit integer, the sign taken from bit 23 of the
    whole field, and returns the float that is exactly that integer
    divided by [2^fractionalBits]; the constructor calls it with 15
    fractional bits for pan, tilt and roll and with 6 for the positions. *)
Theorem getFreeDFloat_twos_complement (b0 b1 b2 : byte) (f : Z) (buf : list byte) :
  f = 15 \/ f = 6 ->
  length buf = 29%nat ->
  (exists x,
      getFreeDFloat [b0; b1; b2] f = ([Call_getFreeDFloat [b0; b1; b2] f], Ok x)
      /\ represents x (be24_signed b0 b1 b2) f)
  /\ (exists a,
        snd (FreeDPacket_init buf) = Ok (Attrs a)
        /\ represents (rot_pan a) (field24 buf 2) 15
        /\ represents (rot_tilt a) (field24 buf 5) 15
        /\ represents (rot_roll a) (field24 buf 8) 15
        /\ represents (pos_x a) (field24 buf 11) 6
        /\ represents (pos_y a) (field24 buf 14) 6
        /\ represents (pos_z a) (field24 buf 17) 6).
Proof.
  intros Hf Hlen. split.
  - eexists. split; [now apply getFreeDFloat_run3|].
    now apply fixed_point_represents.
  - destruct (FreeDPacket_init_fields buf Hlen)
      as (a & Ha & _ & E1 & E2 & E3 & E4 & E5 & E6).
    exists a. split; [assumption|].
    rewrite E1, E2, E3, E4, E5, E6.
    repeat split; apply field24_represents; auto.
Qed.

Lemma getFreeDFloat_twos_complement_witness :
  (15 = 15 \/ 15 = 6)
  /\ length sample_frame = 29%nat
  /\ (exists x,
        getFreeDFloat [Byte.xff; Byte.xff; Byte.xfe] 15
        = ([Call_getFreeDFloat [Byte.xff; Byte.xff; Byte.xfe] 15], Ok x)
        /\ represents x (be24_signed Byte.xff Byte.xff Byte.xfe) 15)
  /\ (exists a,
        snd (FreeDPacket_init sample_frame) = Ok (Attrs a)
        /\ represents (rot_pan a) (field24 sample_frame 2) 15
        /\ represents (rot_tilt a) (field24 sample_frame 5) 15
        /\ represents (rot_roll a) (field24 sample_frame 8) 15
        /\ represents (pos_x a) (field24 sample_frame 11) 6
        /\ represents (pos_y a) (field24 sample_frame 14) 6
        /\ represents (pos_z a) (field24 sample_frame 17) 6).
Proof.
  split; [left; reflexivity|]. split; [reflexivity|].
  apply (getFreeDFloat_twos_complement Byte.xff Byte.xff Byte.xfe 15 sample_frame);
    [left; reflexivity | reflexivity].
Defined.

(** The sign comes from bit 23 of the field, not from each byte: the field
    [00 80 00] is the positive integer 32768, and [ff ff fe] is -2. *)
Lemma sign_is_field_wide :
  be24_signed Byte.x00 Byte.x80 Byte.x00 = 32768
  /\ bytewise_signed Byte.x00 Byte.x80 Byte.x00 = -32768
  /\ be24_signed Byte.xff Byte.xff Byte.xfe = -2
  /\ snd (getFreeDFloat [Byte.x00; Byte.x80; Byte.x00] 15)
     = Ok (S754_finite false two52 (-52)).
Proof. repeat split. Qed.

(** ** Round trip *)

Lemma be24_signed_encode24 (n : Z) :
  - 2 ^ 23 <= n < 2 ^ 23 ->
  int_from_bytes (encode24 n) true = n.
Proof.
  intros Hn. unfold encode24. rewrite int_from_bytes_3.
  unfold be24_signed. rewrite !byte_int_of_Z.
  change (2 ^ 23) with 8388608 in *. change (2 ^ 24) with 16777216.
  destruct (Z.ltb_spec ((n / 65536) mod 256 * 65536 + (n / 256) mod 256 * 256 + n mod 256)
                       8388608) as [Hlt | Hge];
    Z.div_mod_to_equations; lia.
Qed.

(** C7: an integer in the signed 24-bit range, written as 3 big-endian
    two's-complement bytes and decoded by [getFreeDFloat] with 15 or 6
    fractional bits, comes back as the float that is exactly the integer
    divided by [2^f]. *)
Theorem getFreeDFloat_round_trip (n f : Z) :
  - 2 ^ 23 <= n < 2 ^ 23 ->
  f = 15 \/ f = 6 ->
  exists x,
    getFreeDFloat (encode24 n) f = ([Call_getFreeDFloat (encode24 n) f], Ok x)
    /\ represents x n f.
Proof.
  intros Hn Hf.
  assert (- 2 ^ 52 < n < 2 ^ 52) as Hn52.
  { change (2 ^ 23) with 8388608 in Hn. change (2 ^ 52) with 4503599627370496. lia. }
  exists (fixed_point n f). split.
  - rewrite getFreeDFloat_run by (try assumption; now rewrite be24_signed_encode24).
    now rewrite be24_signed_encode24.
  - now apply fixed_point_value.
Qed.

Lemma getFreeDFloat_round_trip_witness :
  - 2 ^ 23 <= -8388608 < 2 ^ 23
  /\ (6 = 15 \/ 6 = 6)
  /\ exists x,
       getFreeDFloat (encode24 (-8388608)) 6
       = ([Call_getFreeDFloat (encode24 (-8388608)) 6], Ok x)
       /\ represents x (-8388608) 6.
Proof.
  split; [split; [discriminate | reflexivity]|].
  split; [right; reflexivity|].
  apply (getFreeDFloat_round_trip (-8388608) 6);
    [split; [discriminate | reflexivity] | right; reflexivity].
Defined.

(** ** Ranges *)

Lemma represents_within (x : float) (n f lo hi : Z) :
  0 <= f ->
  represents x n f -> lo * 2 ^ f <= n < hi * 2 ^ f -> within x lo hi.
Proof.
  intros Hf (q & Hq & Heq) Hn. exists q. split; [assumption|].
  pose proof (Z.pow_pos_nonneg 2 f ltac:(lia) Hf) as Hp.
  rewrite Heq. unfold Qdiv.
  destruct (2 ^ f) as [|p|p] eqn:E; try lia.
  unfold Qle, Qlt, Qmult, Qinv, inject_Z. cbn [Qnum Qden].
  rewrite !Z.mul_1_r, !Pos.mul_1_l. lia.
Qed.

Lemma field24_within (buf : list byte) (off : nat) (f lo hi : Z) :
  f = 15 \/ f = 6 ->
  lo * 2 ^ f <= - 2 ^ 23 -> 2 ^ 23 <= hi * 2 ^ f ->
  within (fixed_point (field24 buf off) f) lo hi.
Proof.
  intros Hf Hlo Hhi.
  apply (represents_within _ (field24 buf off) f); [lia | now apply field24_represents |].
  pose proof (field24_range buf off). lia.
Qed.

(** C10, as the code has it: on every 29-byte buffer the decoded pan, tilt
    and roll lie in [-256, 256) and the decoded positions lie in
    [-131072, 131072), a signed 24-bit integer divided by [2^15] and by
    [2^6]; rotations are not held to [-180, 180], a pan field [0x800000]
    decodes to -256. *)
Theorem decoded_field_ranges (buf : list byte) :
  length buf = 29%nat ->
  (exists a,
      snd (FreeDPacket_init buf) = Ok (Attrs a)
      /\ within (rot_pan a) (-256) 256
      /\ within (rot_tilt a) (-256) 256
      /\ within (rot_roll a) (-256) 256
      /\ within (pos_x a) (-131072) 131072
      /\ within (pos_y a) (-131072) 131072
      /\ within (pos_z a) (-131072) 131072)
  /\ (exists a',
        snd (FreeDPacket_init extreme_frame) = Ok (Attrs a')
        /\ within (rot_pan a') (-256) (-255)
        /\ within (rot_tilt a') 255 256).
Proof.
  intros Hlen. split.
  - destruct (FreeDPacket_init_fields buf Hlen)
      as (a & Ha & _ & E1 & E2 & E3 & E4 & E5 & E6).
    exists a. split; [assumption|].
    rewrite E1, E2, E3, E4, E5, E6.
    repeat apply conj; apply field24_within; auto; vm_compute; discriminate.
  - destruct (FreeDPacket_init_fields extreme_frame eq_refl)
      as (a & Ha & _ & E1 & E2 & _).
    exists a. split; [assumption|]. rewrite E1, E2. split.
    + apply (represents_within _ (field24 extreme_frame 2) 15);
        [lia | apply field24_represents; auto | vm_compute; split; [discriminate | reflexivity]].
    + apply (represents_within _ (field24 extreme_frame 5) 15);
        [lia | apply field24_represents; auto | vm_compute; split; [discriminate | reflexivity]].
Qed.

Lemma decoded_field_ranges_witness :
  length sample_frame = 29%nat
  /\ (exists a,
        snd (FreeDPacket_init sample_frame) = Ok (Attrs a)
        /\ within (rot_pan a) (-256) 256
        /\ within (rot_tilt a) (-256) 256
        /\ within (rot_roll a) (-256) 256
        /\ within (pos_x a) (-131072) 131072
        /\ within (pos_y a) (-131072) 131072
        /\ within (pos_z a) (-131072) 131072)
  /\ (exists a',
        snd (FreeDPacket_init extreme_frame) = Ok (Attrs a')
        /\ within (rot_pan a') (-256) (-255)
        /\ within (rot_tilt a') 255 256).
Proof.
  split; [reflexivity|].
  apply (decoded_field_ranges sample_frame). reflexivity.
Defined.

(** Against C10 as stated: the x field [0x7FFFFF] decodes to a position of
    at least 131071 and the y field [0x800000] to -131072, both outside
    [-65536, 65536). *)
Lemma position_outside_65536 :
  length extreme_frame = 29%nat
  /\ exists a,
       snd (FreeDPacket_init extreme_frame) = Ok (Attrs a)
       /\ within (pos_x a) 131071 131072
       /\ within (pos_y a) (-131072) (-131071).
Proof.
  split; [reflexivity|].
  destruct (FreeDPacket_init_fields extreme_frame eq_refl)
    as (a & Ha & _ & _ & _ & _ & E4 & E5 & _).
  exists a. split; [assumption|]. rewrite E4, E5. split.
  - apply (represents_within _ (field24 extreme_frame 11) 6);
      [lia | apply field24_represents; auto | vm_compute; split; [discriminate | reflexivity]].
  - apply (represents_within _ (field24 extreme_frame 14) 6);
      [lia | apply field24_represents; auto | vm_compute; split; [discriminate | reflexivity]].
Qed.

(** ** The converter *)

(** C4: for every decoded packet the converter stores pos_y / 10.0,
    pos_z / 10.0 and pos_x / 10.0 under x, y and z, rot_tilt under pitch,
    -(rot_pan + 90) under yaw and rot_roll under roll, in binary64
    arithmetic; the packet decoded from [sample_frame] has position
    (1000, 2000, 3000) and rotation (10, 20, 30), and is converted to
    x = 200.0, y = 300.0, z = 100.0, pitch = 20.0, yaw = -100.0,
    roll = 30.0. *)
Theorem packageFrameData_remap
    (Clock FrameRate Timecode : Type)
    (getSystemTimecodeAsFrames : Clock -> FrameRate -> Timecode)
    (self : FreeDCaptureThread FrameRate Timecode) (now : Clock)
    (a : PacketAttrs) :
  (exists data,
      packageFrameData getSystemTimecodeAsFrames self now (Attrs a) = Ok data
      /\ dict_get data TRACKING_X = Some (VFloat (SFdiv prec emax (pos_y a) (float_of_Z 10)))
      /\ dict_get data TRACKING_Y = Some (VFloat (SFdiv prec emax (pos_z a) (float_of_Z 10)))
      /\ dict_get data TRACKING_Z = Some (VFloat (SFdiv prec emax (pos_x a) (float_of_Z 10)))
      /\ dict_get data TRACKING_PITCH = Some (VFloat (rot_tilt a))
      /\ dict_get data TRACKING_YAW
         = Some (VFloat (SFopp (SFadd prec emax (rot_pan a) (float_of_Z 90))))
      /\ dict_get data TRACKING_ROLL = Some (VFloat (rot_roll a)))
  /\ (exists a0 data0,
        snd (FreeDPacket_init sample_frame) = Ok (Attrs a0)
        /\ pos_x a0 = float_of_Z 1000 /\ pos_y a0 = float_of_Z 2000
        /\ pos_z a0 = float_of_Z 3000
        /\ rot_pan a0 = float_of_Z 10 /\ rot_tilt a0 = float_of_Z 20
        /\ rot_roll a0 = float_of_Z 30
        /\ packageFrameData getSystemTimecodeAsFrames self now (Attrs a0) = Ok data0
        /\ dict_get data0 TRACKING_X = Some (VFloat (float_of_Z 200))
        /\ dict_get data0 TRACKING_Y = Some (VFloat (float_of_Z 300))
        /\ dict_get data0 TRACKING_Z = Some (VFloat (float_of_Z 100))
        /\ dict_get data0 TRACKING_PITCH = Some (VFloat (float_of_Z 20))
        /\ dict_get data0 TRACKING_YAW = Some (VFloat (float_of_Z (-100)))
        /\ dict_get data0 TRACKING_ROLL = Some (VFloat (float_of_Z 30))).
Proof.
  split.
  - eexists. split; [reflexivity|]. repeat split.
  - eexists. eexists. split; [vm_compute; reflexivity|].
    do 6 (split; [vm_compute; reflexivity|]).
    split; [reflexivity|].
    repeat split.
Qed.

(** C6, as the code has it: the converter takes no timecode from its
    caller; it calls [getSystemTimecodeAsFrames] on the thread's frame rate
    and stores what the call returns, unmodified, under the timecode key. *)
Theorem packageFrameData_timecode
    (Clock FrameRate Timecode : Type)
    (getSystemTimecodeAsFrames : Clock -> FrameRate -> Timecode)
    (self : FreeDCaptureThread FrameRate Timecode) (now : Clock)
    (a : PacketAttrs) :
  exists data,
    packageFrameData getSystemTimecodeAsFrames self now (Attrs a) = Ok data
    /\ dict_get data TRACKING_TIMECODE_KEY
       = Some (VTimecode (getSystemTimecodeAsFrames now (frameRate self))).
Proof. eexists. split; reflexivity. Qed.

(** Against C6 as stated: the same thread converting the same packet
    stamps 24 when the clock reads 1 and 48 when it reads 2; the timecode
    is read by the converter, not handed to it. *)
Lemma timecode_read_by_converter :
  exists a data1 data2,
    snd (FreeDPacket_init sample_frame) = Ok (Attrs a)
    /\ packageFrameData seconds_as_frames sample_thread 1 (Attrs a) = Ok data1
    /\ packageFrameData seconds_as_frames sample_thread 2 (Attrs a) = Ok data2
    /\ dict_get data1 TRACKING_TIMECODE_KEY = Some (VTimecode 24)
    /\ dict_get data2 TRACKING_TIMECODE_KEY = Some (VTimecode 48).
Proof.
  eexists. eexists. eexists.
  split; [vm_compute; reflexivity|].
  split; [reflexivity|]. split; [reflexivity|].
  split; reflexivity.
Qed.

(** ** The recognition gate and the constructor *)

Lemma bytes_eqb_sync (buf : list byte) :
  bytes_eqb (firstn 1 buf) [Byte.xd1] = true <-> hd_error buf = Some Byte.xd1.
Proof.
  destruct buf as [|b rest]; cbn [firstn hd_error bytes_eqb]; [split; discriminate|].
  rewrite andb_true_r. split.
  - intros H. apply Byte.byte_dec_bl in H. now subst.
  - intros [= ->]. reflexivity.
Qed.

Lemma bind_tell_head {B : Type} (ev : event) (k : unit -> M B) :
  exists t r, bind (tell ev) k = (ev :: t, r).
Proof. unfold bind, tell. destruct (k tt) as [t r]. now exists t, r. Qed.

(** The constructor's trace always starts with its own call. *)
Lemma FreeDPacket_init_called (buf : list byte) :
  exists t r, FreeDPacket_init buf = (Call_FreeDPacket buf :: t, r).
Proof. unfold FreeDPacket_init. apply bind_tell_head. Qed.

Lemma FreeDPacket_init_bad_length (buf : list byte) :
  length buf <> 29%nat ->
  FreeDPacket_init buf
  = ([Call_FreeDPacket buf;
      Logger_error "FreeD camera transform packet must contain 29 bytes."],
     Ok NoAttrs).
Proof.
  intros H. unfold FreeDPacket_init, FREED_PACKET_SIZE.
  apply Nat.eqb_neq in H. rewrite H. reflexivity.
Qed.

(** C5: a buffer that does not start with 0xD1 (an empty one included) is
    answered with [None] and an empty trace, so neither the constructor
    nor [getFreeDFloat] is called; for a buffer that starts with 0xD1 the
    constructor is called on it. *)
Theorem parsePacket_gate
    (FrameRate Timecode : Type)
    (self : FreeDCaptureThread FrameRate Timecode) (buf : list byte) :
  (hd_error buf <> Some Byte.xd1 -> parsePacket self buf = ([], Ok None))
  /\ (hd_error buf = Some Byte.xd1 ->
      exists t r, parsePacket self buf = (Call_FreeDPacket buf :: t, r)).
Proof.
  unfold parsePacket. split; intros H.
  - destruct (bytes_eqb (firstn 1 buf) [Byte.xd1]) eqn:E; [|reflexivity].
    apply bytes_eqb_sync in E. contradiction.
  - apply bytes_eqb_sync in H. rewrite H.
    destruct (FreeDPacket_init_called buf) as (t & r & ->).
    destruct r as [p | e]; cbn [bind tell ret app]; eauto.
Qed.

Lemma parsePacket_gate_witness :
  parsePacket sample_thread foreign_frame = ([], Ok None)
  /\ exists t r,
       parsePacket sample_thread sample_frame = (Call_FreeDPacket sample_frame :: t, r).
Proof.
  split.
  - apply (proj1 (parsePacket_gate Z Z sample_thread foreign_frame)). discriminate.
  - apply (proj2 (parsePacket_gate Z Z sample_thread sample_frame)). reflexivity.
Defined.

(** C8: for a 29-byte buffer that starts with 0xD1, the packet that
    [parsePacket] returns stores exactly the buffer; building a packet
    again from the stored bytes gives the same packet, field for field;
    [checksumValid] depends on the stored bytes only, and two calls on the
    packet give the same answer. *)
Theorem decoded_packet_invariant
    (FrameRate Timecode : Type)
    (self : FreeDCaptureThread FrameRate Timecode) (buf : list byte) :
  length buf = 29%nat ->
  hd_error buf = Some Byte.xd1 ->
  exists a v,
    snd (parsePacket self buf) = Ok (Some (Attrs a))
    /\ packetBytes a = buf
    /\ snd (FreeDPacket_init (packetBytes a)) = Ok (Attrs a)
    /\ checksumValid (Attrs a) = Ok v
    /\ checksumValid_twice (Attrs a) = Ok (v, v)
    /\ (forall a', packetBytes a' = packetBytes a -> checksumValid (Attrs a') = Ok v).
Proof.
  intros Hlen Hhd.
  destruct (FreeDPacket_init_29 buf Hlen) as (a & Ha & Hb).
  exists a, (spec_checksum_valid buf).
  split.
  { unfold parsePacket. apply bytes_eqb_sync in Hhd. rewrite Hhd.
    destruct (FreeDPacket_init buf) as [t r]. cbn [snd] in Ha. subst r.
    reflexivity. }
  split; [assumption|].
  split; [now rewrite Hb|].
  assert (checksumValid (Attrs a) = Ok (spec_checksum_valid buf)) as Hv
    by now rewrite checksumValid_Attrs, Hb.
  split; [assumption|].
  split; [unfold checksumValid_twice; rewrite Hv; reflexivity|].
  intros a' Ha'. now rewrite checksumValid_Attrs, Ha', Hb.
Qed.

Lemma decoded_packet_invariant_witness :
  length sample_frame = 29%nat
  /\ hd_error sample_frame = Some Byte.xd1
  /\ exists a v,
       snd (parsePacket sample_thread sample_frame) = Ok (Some (Attrs a))
       /\ packetBytes a = sample_frame
       /\ snd (FreeDPacket_init (packetBytes a)) = Ok (Attrs a)
       /\ checksumValid (Attrs a) = Ok v
       /\ checksumValid_twice (Attrs a) = Ok (v, v)
       /\ (forall a', packetBytes a' = packetBytes a -> checksumValid (Attrs a') = Ok v).
Proof.
  split; [reflexivity|]. split; [reflexivity|].
  apply (decoded_packet_invariant Z Z sample_thread sample_frame); reflexivity.
Defined.

(** C2, what the code does: on a buffer whose length is not 29 the
    constructor logs the error and returns normally; no exception is
    raised and the caller receives an instance without attributes, which
    [parsePacket] hands on as a parsed packet and on which
    [checksumValid] raises AttributeError. *)
Theorem bad_length_object_escapes
    (FrameRate Timecode : Type)
    (self : FreeDCaptureThread FrameRate Timecode) (buf : list byte) :
  length buf <> 29%nat ->
  FreeDPacket_init buf
  = ([Call_FreeDPacket buf;
      Logger_error "FreeD camera transform packet must contain 29 bytes."],
     Ok NoAttrs)
  /\ (hd_error buf = Some Byte.xd1 -> snd (parsePacket self buf) = Ok (Some NoAttrs))
  /\ validateParsedData self (Some NoAttrs) = Raise AttributeError.
Proof.
  intros Hlen. split; [now apply FreeDPacket_init_bad_length|].
  split; [|reflexivity].
  intros Hhd. unfold parsePacket. apply bytes_eqb_sync in Hhd. rewrite Hhd.
  rewrite FreeDPacket_init_bad_length by assumption. reflexivity.
Qed.

Lemma bad_length_object_escapes_witness :
  length short_frame <> 29%nat
  /\ FreeDPacket_init short_frame
     = ([Call_FreeDPacket short_frame;
         Logger_error "FreeD camera transform packet must contain 29 bytes."],
        Ok NoAttrs)
  /\ snd (parsePacket sample_thread short_frame) = Ok (Some NoAttrs)
  /\ validateParsedData sample_thread (Some NoAttrs) = Raise AttributeError.
Proof.
  assert (length short_frame <> 29%nat) as H by discriminate.
  destruct (bad_length_object_escapes Z Z sample_thread short_frame H) as (H1 & H2 & H3).
  split; [exact H|]. split; [exact H1|]. split; [|exact H3].
  apply H2. reflexivity.
Defined.

(** * Further properties of the decoder and of the capture thread *)

(** ** The constructor *)

(** X1: the constructor raises on no buffer at all; it returns an instance
    without attributes exactly when the length is not 29. *)
Theorem FreeDPacket_init_never_raises (buf : list byte) :
  exists t p,
    FreeDPacket_init buf = (t, Ok p)
    /\ (p = NoAttrs <-> length buf <> 29%nat).
Proof.
  destruct (Nat.eq_dec (length buf) 29) as [H | H].
  - destruct (FreeDPacket_init_29 buf H) as (a & Ha & _).
    destruct (FreeDPacket_init buf) as [t r]. cbn [snd] in Ha. subst r.
    exists t, (Attrs a). split; [reflexivity|]. split; [discriminate | contradiction].
  - rewrite FreeDPacket_init_bad_length by assumption.
    eexists. eexists. split; [reflexivity|]. tauto.
Qed.

Lemma struct_unpack_split (fmt : list nat) (data : list byte) :
  length data = list_sum fmt ->
  concat (split_fields fmt data) = data
  /\ map (@length byte) (split_fields fmt data) = fmt.
Proof.
  revert data. induction fmt as [|w fmt IH]; intros data H; cbn [split_fields].
  - destruct data; [split; reflexivity | discriminate H].
  - cbn [list_sum fold_right] in H. fold (list_sum fmt) in H.
    destruct (IH (skipn w data)) as [Hc Hm].
    { rewrite length_skipn. lia. }
    cbn [concat map]. rewrite Hc, Hm, firstn_skipn, length_firstn.
    split; [reflexivity|]. f_equal. lia.
Qed.

(** X2: the twelve fields that the constructor unpacks from a 29-byte
    buffer have the widths 1, 1, 3, 3, 3, 3, 3, 3, 3, 3, 2, 1 and, put end
    to end, are the buffer: no byte is skipped or read twice; on any other
    length [struct.unpack] with this format raises. *)
Theorem packet_format_partition (data : list byte) :
  (length data = 29%nat ->
   exists fields,
     struct_unpack packet_format data = Ok fields
     /\ concat fields = data
     /\ map (@length byte) fields = packet_format)
  /\ (length data <> 29%nat -> struct_unpack packet_format data = Raise StructError).
Proof.
  unfold struct_unpack. change (list_sum packet_format) with 29%nat. split; intros H.
  - rewrite H. cbn [Nat.eqb]. eexists. split; [reflexivity|].
    now apply struct_unpack_split.
  - apply Nat.eqb_neq in H. now rewrite H.
Qed.

Lemma packet_format_partition_witness :
  (exists fields,
      struct_unpack packet_format sample_frame = Ok fields
      /\ concat fields = sample_frame
      /\ map (@length byte) fields = packet_format)
  /\ struct_unpack packet_format short_frame = Raise StructError.
Proof.
  split.
  - apply (proj1 (packet_format_partition sample_frame)). reflexivity.
  - apply (proj2 (packet_format_partition short_frame)). discriminate.
Defined.

Lemma int_from_bytes_unsigned_range (raw : list byte) :
  0 <= int_from_bytes raw false < 256 ^ Z.of_nat (length raw).
Proof.
  unfold int_from_bytes. cbn [andb].
  unfold int_from_bytes_unsigned.
  assert (forall acc k, 0 <= acc < 256 ^ k -> 0 <= k ->
            0 <= fold_left (fun acc b => acc * 256 + byte_int b) raw acc
              < 256 ^ (k + Z.of_nat (length raw))) as Hgen.
  { induction raw as [|b rest IH]; intros acc k Hacc Hk; cbn [fold_left length].
    - now rewrite Z.add_0_r.
    - rewrite Nat2Z.inj_succ.
      replace (k + Z.succ (Z.of_nat (length rest))) with (Z.succ k + Z.of_nat (length rest)) by lia.
      apply IH; [|lia]. rewrite Z.pow_succ_r by lia.
      pose proof (byte_int_range b). lia. }
  apply (Hgen 0 0); [simpl; lia | lia].
Qed.

(** X3: the unsigned attributes of a packet built from 29 bytes: the camera
    id is byte 1, zoom is the 3 bytes from offset 20, focus the 3 bytes
    from offset 23, spare the 2 bytes from offset 26 and the checksum is
    the last byte, each read big-endian and never negative. *)
Theorem unsigned_fields_layout (buf : list byte) :
  length buf = 29%nat ->
  exists a,
    snd (FreeDPacket_init buf) = Ok (Attrs a)
    /\ cam_id a = field_unsigned buf 1 1 /\ 0 <= cam_id a < 2 ^ 8
    /\ zoom a = field_unsigned buf 20 3 /\ 0 <= zoom a < 2 ^ 24
    /\ focus a = field_unsigned buf 23 3 /\ 0 <= focus a < 2 ^ 24
    /\ spare a = field_unsigned buf 26 2 /\ 0 <= spare a < 2 ^ 16
    /\ checksum a = field_unsigned buf 28 1 /\ 0 <= checksum a < 2 ^ 8.
Proof.
  intros H. destruct (length_29_inv buf H) as
    (b0 & b1 & b2 & b3 & b4 & b5 & b6 & b7 & b8 & b9 & b10 & b11 & b12 & b13 &
     b14 & b15 & b16 & b17 & b18 & b19 & b20 & b21 & b22 & b23 & b24 & b25 &
     b26 & b27 & b28 & ->).
  rewrite FreeDPacket_init_run. cbn [snd]. eexists.
  split; [reflexivity|].
  cbn [cam_id zoom focus spare checksum].
  pose proof (int_from_bytes_unsigned_range [b1]) as R1.
  pose proof (int_from_bytes_unsigned_range [b20; b21; b22]) as R2.
  pose proof (int_from_bytes_unsigned_range [b23; b24; b25]) as R3.
  pose proof (int_from_bytes_unsigned_range [b26; b27]) as R4.
  pose proof (int_from_bytes_unsigned_range [b28]) as R5.
  cbn [length] in R1, R2, R3, R4, R5.
  change (256 ^ Z.of_nat 1) with (2 ^ 8) in *.
  change (256 ^ Z.of_nat 3) with (2 ^ 24) in *.
  change (256 ^ Z.of_nat 2) with (2 ^ 16) in *.
  repeat apply conj; try (apply R1 || apply R2 || apply R3 || apply R4 || apply R5);
    unfold int_from_bytes, int_from_bytes_unsigned;
    cbn [andb fold_left field_unsigned nth Z.of_nat];
    change (256 ^ 0) with 1; change (256 ^ Z.pos 1) with 256;
    change (256 ^ Z.pos 2) with 65536; lia.
Qed.

Lemma unsigned_fields_layout_witness :
  length sample_frame = 29%nat
  /\ exists a,
       snd (FreeDPacket_init sample_frame) = Ok (Attrs a)
       /\ cam_id a = field_unsigned sample_frame 1 1 /\ 0 <= cam_id a < 2 ^ 8
       /\ zoom a = field_unsigned sample_frame 20 3 /\ 0 <= zoom a < 2 ^ 24
       /\ focus a = field_unsigned sample_frame 23 3 /\ 0 <= focus a < 2 ^ 24
       /\ spare a = field_unsigned sample_frame 26 2 /\ 0 <= spare a < 2 ^ 16
       /\ checksum a = field_unsigned sample_frame 28 1 /\ 0 <= checksum a < 2 ^ 8.
Proof.
  split; [reflexivity|].
  apply (unsigned_fields_layout sample_frame). reflexivity.
Defined.

(** ** The fixed-point decode loses nothing *)

Lemma byte_int_inj (a b : byte) : byte_int a = byte_int b -> a = b.
Proof.
  unfold byte_int. intros H. apply N2Z.inj in H.
  pose proof (Byte.of_to_N a) as Ha. rewrite H, Byte.of_to_N in Ha.
  now injection Ha.
Qed.

Lemma be24_signed_inj (b0 b1 b2 c0 c1 c2 : byte) :
  be24_signed b0 b1 b2 = be24_signed c0 c1 c2 -> [b0; b1; b2] = [c0; c1; c2].
Proof.
  unfold be24_signed. intros H.
  pose proof (byte_int_range b0). pose proof (byte_int_range b1).
  pose proof (byte_int_range b2). pose proof (byte_int_range c0).
  pose proof (byte_int_range c1). pose proof (byte_int_range c2).
  change (2 ^ 23) with 8388608 in H. change (2 ^ 24) with 16777216 in H.
  assert (byte_int b0 = byte_int c0 /\ byte_int b1 = byte_int c1
          /\ byte_int b2 = byte_int c2) as (E0 & E1 & E2).
  { destruct (Z.ltb_spec (byte_int b0 * 65536 + byte_int b1 * 256 + byte_int b2) 8388608);
      destruct (Z.ltb_spec (byte_int c0 * 65536 + byte_int c1 * 256 + byte_int c2) 8388608);
      lia. }
  apply byte_int_inj in E0, E1, E2. now subst.
Qed.

Lemma represents_inj (x : float) (n n' f : Z) :
  0 <= f -> represents x n f -> represents x n' f -> n = n'.
Proof.
  intros Hf (q & Hq & Heq) (q' & Hq' & Heq'). rewrite Hq in Hq'.
  injection Hq' as <-. rewrite Heq in Heq'.
  pose proof (Z.pow_pos_nonneg 2 f ltac:(lia) Hf) as Hp.
  unfold Qdiv in Heq'. destruct (2 ^ f) as [|p|p] eqn:E; try lia.
  unfold Qeq, Qmult, Qinv, inject_Z in Heq'. cbn [Qnum Qden] in Heq'.
  rewrite !Z.mul_1_r, !Pos.mul_1_l in Heq'. nia.
Qed.

(** X4: with 15 or with 6 fractional bits, two 3-byte fields that
    [getFreeDFloat] decodes to the same float are the same three bytes. *)
Theorem getFreeDFloat_injective (b0 b1 b2 c0 c1 c2 : byte) (f : Z) :
  f = 15 \/ f = 6 ->
  snd (getFreeDFloat [b0; b1; b2] f) = snd (getFreeDFloat [c0; c1; c2] f) ->
  [b0; b1; b2] = [c0; c1; c2].
Proof.
  intros Hf H. rewrite !getFreeDFloat_run3 in H by assumption.
  cbn [snd] in H. injection H as H.
  apply be24_signed_inj.
  apply (represents_inj (fixed_point (be24_signed b0 b1 b2) f) _ _ f); [lia | |].
  - now apply fixed_point_represents.
  - rewrite H. now apply fixed_point_represents.
Qed.

Lemma getFreeDFloat_injective_witness :
  (6 = 15 \/ 6 = 6)
  /\ snd (getFreeDFloat [Byte.x01; Byte.xf4; Byte.x00] 6)
     = snd (getFreeDFloat [Byte.x01; Byte.xf4; Byte.x00] 6)
  /\ [Byte.x01; Byte.xf4; Byte.x00] = [Byte.x01; Byte.xf4; Byte.x00].
Proof.
  split; [right; reflexivity|]. split; [reflexivity|].
  apply (getFreeDFloat_injective Byte.x01 Byte.xf4 Byte.x00 Byte.x01 Byte.xf4 Byte.x00 6);
    [right; reflexivity | reflexivity].
Defined.

(** ** What the checksum accepts and what it detects *)

Lemma bytes_sum_app (l1 l2 : list byte) :
  bytes_sum (l1 ++ l2) = bytes_sum l1 + bytes_sum l2.
Proof.
  induction l1 as [|b l1 IH]; [reflexivity|].
  cbn [app bytes_sum fold_right]. fold (bytes_sum (l1 ++ l2)) (bytes_sum l1).
  rewrite IH. lia.
Qed.

Lemma bytes_sum_cons (b : byte) (l : list byte) :
  bytes_sum (b :: l) = byte_int b + bytes_sum l.
Proof. reflexivity. Qed.

Lemma checksumValid_built (buf : list byte) :
  length buf = 29%nat ->
  exists a,
    snd (FreeDPacket_init buf) = Ok (Attrs a)
    /\ checksumValid (Attrs a) = Ok ((0x40 - bytes_sum buf) mod 4 =? 0).
Proof.
  intros H. destruct (FreeDPacket_init_29 buf H) as (a & Ha & Hb).
  exists a. split; [assumption|].
  rewrite checksumValid_Attrs, Hb. unfold spec_checksum_valid.
  rewrite spec_accumulate_mod; [reflexivity|]. intros ->. discriminate H.
Qed.

(** X5: a 28-byte body followed by the checksum byte that the docstring
    describes, 0x40 minus every byte of the body modulo 256, is accepted
    by [checksumValid]. *)
Theorem freed_checksum_accepted (body : list byte) :
  length body = 28%nat ->
  exists a,
    snd (FreeDPacket_init (body ++ [freed_checksum body])) = Ok (Attrs a)
    /\ checksumValid (Attrs a) = Ok true.
Proof.
  intros H.
  destruct (checksumValid_built (body ++ [freed_checksum body])) as (a & Ha & Hv).
  { rewrite length_app, H. reflexivity. }
  exists a. split; [assumption|]. rewrite Hv. f_equal. apply Z.eqb_eq.
  rewrite bytes_sum_app. cbn [bytes_sum fold_right].
  unfold freed_checksum. rewrite byte_int_of_Z.
  change 0x40 with 64. Z.div_mod_to_equations. lia.
Qed.

Lemma freed_checksum_accepted_witness :
  length short_frame = 28%nat
  /\ exists a,
       snd (FreeDPacket_init (short_frame ++ [freed_checksum short_frame])) = Ok (Attrs a)
       /\ checksumValid (Attrs a) = Ok true.
Proof.
  split; [reflexivity|].
  apply (freed_checksum_accepted short_frame). reflexivity.
Defined.

(** X6: when one byte of an accepted 29-byte buffer is replaced by a byte
    that differs from it in its two least-significant bits, the buffer is
    rejected. *)
Theorem low_bits_change_detected (pre post : list byte) (b b' : byte) :
  length (pre ++ b :: post) = 29%nat ->
  ~ same_low2 b b' ->
  exists a a',
    snd (FreeDPacket_init (pre ++ b :: post)) = Ok (Attrs a)
    /\ snd (FreeDPacket_init (pre ++ b' :: post)) = Ok (Attrs a')
    /\ (checksumValid (Attrs a) = Ok true -> checksumValid (Attrs a') = Ok false).
Proof.
  intros Hlen Hdiff.
  destruct (checksumValid_built (pre ++ b :: post) Hlen) as (a & Ha & Hv).
  destruct (checksumValid_built (pre ++ b' :: post)) as (a' & Ha' & Hv').
  { rewrite length_app in *. cbn [length] in *. lia. }
  exists a, a'. split; [assumption|]. split; [assumption|].
  rewrite Hv, Hv'. intros H0.
  assert (((0x40 - bytes_sum (pre ++ b :: post)) mod 4 =? 0) = true) as H
    by congruence.
  clear H0 Hv Hv' Ha Ha' Hlen. f_equal.
  apply Z.eqb_eq in H. apply Z.eqb_neq.
  rewrite bytes_sum_app, bytes_sum_cons in H |- *.
  unfold same_low2 in Hdiff. rewrite !land_3_mod in Hdiff.
  generalize dependent (bytes_sum pre). generalize dependent (bytes_sum post).
  generalize dependent (byte_int b). generalize dependent (byte_int b').
  intros. Z.div_mod_to_equations. lia.
Qed.

Lemma low_bits_change_detected_witness :
  length (short_frame ++ Byte.x71 :: []) = 29%nat
  /\ ~ same_low2 Byte.x71 Byte.x72
  /\ exists a a',
       snd (FreeDPacket_init (short_frame ++ Byte.x71 :: [])) = Ok (Attrs a)
       /\ snd (FreeDPacket_init (short_frame ++ Byte.x72 :: [])) = Ok (Attrs a')
       /\ (checksumValid (Attrs a) = Ok true -> checksumValid (Attrs a') = Ok false).
Proof.
  assert (~ same_low2 Byte.x71 Byte.x72) as H by (unfold same_low2; discriminate).
  split; [reflexivity|]. split; [exact H|].
  apply (low_bits_change_detected short_frame [] Byte.x71 Byte.x72); [reflexivity | exact H].
Defined.

Lemma bytes_sum_Permutation (l1 l2 : list byte) :
  Permutation l1 l2 -> bytes_sum l1 = bytes_sum l2.
Proof.
  induction 1 as [|x l l' _ IH|x y l|l l' l'' _ IH1 _ IH2];
    cbn [bytes_sum fold_right]; try fold (bytes_sum l); try fold (bytes_sum l');
    [reflexivity | lia | lia | congruence].
Qed.

(** X7: the checksum does not see the order of the bytes: a 29-byte buffer
    and any rearrangement of its bytes get the same answer from
    [checksumValid]. *)
Theorem checksumValid_order_blind (buf1 buf2 : list byte) :
  length buf1 = 29%nat ->
  Permutation buf1 buf2 ->
  exists a1 a2,
    snd (FreeDPacket_init buf1) = Ok (Attrs a1)
    /\ snd (FreeDPacket_init buf2) = Ok (Attrs a2)
    /\ checksumValid (Attrs a1) = checksumValid (Attrs a2).
Proof.
  intros H1 HP.
  assert (length buf2 = 29%nat) as H2
    by (rewrite <- H1; symmetry; now apply Permutation_length).
  destruct (checksumValid_built buf1 H1) as (a1 & Ha1 & Hv1).
  destruct (checksumValid_built buf2 H2) as (a2 & Ha2 & Hv2).
  exists a1, a2. split; [assumption|]. split; [assumption|].
  now rewrite Hv1, Hv2, (bytes_sum_Permutation buf1 buf2 HP).
Qed.

Lemma checksumValid_order_blind_witness :
  length sample_frame = 29%nat
  /\ Permutation sample_frame (rev sample_frame)
  /\ exists a1 a2,
       snd (FreeDPacket_init sample_frame) = Ok (Attrs a1)
       /\ snd (FreeDPacket_init (rev sample_frame)) = Ok (Attrs a2)
       /\ checksumValid (Attrs a1) = checksumValid (Attrs a2).
Proof.
  split; [reflexivity|]. split; [apply Permutation_rev|].
  apply (checksumValid_order_blind sample_frame (rev sample_frame));
    [reflexivity | apply Permutation_rev].
Defined.

(** ** Parsing, validation and caching *)

(** X8: what [validateParsedData] answers on the result of [parsePacket]:
    [False] for a buffer that does not start with 0xD1, whatever its
    length; for a 29-byte buffer that starts with 0xD1, whether 0x40 minus
    the sum of its bytes is a multiple of 4; and for a buffer that starts
    with 0xD1 and has another length, AttributeError. *)
Theorem validate_after_parse
    (FrameRate Timecode : Type)
    (self : FreeDCaptureThread FrameRate Timecode) (buf : list byte) :
  exists p,
    snd (parsePacket self buf) = Ok p
    /\ (hd_error buf <> Some Byte.xd1 -> validateParsedData self p = Ok false)
    /\ (hd_error buf = Some Byte.xd1 -> length buf = 29%nat ->
        validateParsedData self p = Ok ((0x40 - bytes_sum buf) mod 4 =? 0))
    /\ (hd_error buf = Some Byte.xd1 -> length buf <> 29%nat ->
        validateParsedData self p = Raise AttributeError).
Proof.
  unfold parsePacket.
  destruct (bytes_eqb (firstn 1 buf) [Byte.xd1]) eqn:E.
  - apply bytes_eqb_sync in E.
    destruct (Nat.eq_dec (length buf) 29) as [H | H].
    + destruct (checksumValid_built buf H) as (a & Ha & Hv).
      destruct (FreeDPacket_init buf) as [t r]. cbn [snd] in Ha. subst r.
      exists (Some (Attrs a)). split; [reflexivity|].
      split; [contradiction|]. split; [intros _ _; exact Hv | contradiction].
    + rewrite FreeDPacket_init_bad_length by assumption.
      exists (Some NoAttrs). split; [reflexivity|].
      split; [contradiction|]. split; [contradiction | reflexivity].
  - assert (hd_error buf <> Some Byte.xd1) as Hne.
    { intros Hhd. apply bytes_eqb_sync in Hhd. congruence. }
    exists None. split; [reflexivity|].
    split; [reflexivity|]. split; contradiction.
Qed.

Lemma validate_after_parse_witness :
  (exists p, snd (parsePacket sample_thread foreign_frame) = Ok p
             /\ validateParsedData sample_thread p = Ok false)
  /\ (exists p, snd (parsePacket sample_thread sample_frame) = Ok p
                /\ validateParsedData sample_thread p
                   = Ok ((0x40 - bytes_sum sample_frame) mod 4 =? 0))
  /\ (exists p, snd (parsePacket sample_thread short_frame) = Ok p
                /\ validateParsedData sample_thread p = Raise AttributeError).
Proof.
  split; [|split].
  - destruct (validate_after_parse Z Z sample_thread foreign_frame) as (p & Hp & H1 & _).
    exists p. split; [exact Hp|]. apply H1. discriminate.
  - destruct (validate_after_parse Z Z sample_thread sample_frame) as (p & Hp & _ & H2 & _).
    exists p. split; [exact Hp|]. apply H2; reflexivity.
  - destruct (validate_after_parse Z Z sample_thread short_frame) as (p & Hp & _ & _ & H3).
    exists p. split; [exact Hp|]. apply H3; [reflexivity | discriminate].
Defined.




(** ** Exact addition, and the yaw of a decoded packet *)

Lemma iter_pos_iter {A : Type} (f : A -> A) (n : positive) (x : A) :
  iter_pos f n x = Pos.iter f x n.
Proof.
  revert x. induction n as [n IH|n IH|]; intros x; cbn [iter_pos Pos.iter].
  - rewrite !IH. now rewrite <- !Pos.iter_swap.
  - now rewrite !IH.
  - reflexivity.
Qed.

Lemma shr_zeros (m t : positive) :
  iter_pos shr_1 t (Build_shr_record (Zpos (Pos.iter xO m t)) false false)
  = Build_shr_record (Zpos m) false false.
Proof.
  rewrite iter_pos_iter.
  induction t as [|t IH] using Pos.peano_ind.
  - reflexivity.
  - rewrite !Pos.iter_succ. rewrite <- Pos.iter_swap. cbn [shr_1 orb]. exact IH.
Qed.

Lemma iter_xO_add (m p q : positive) :
  Pos.iter xO (Pos.iter xO m q) p = Pos.iter xO m (p + q).
Proof. symmetry. apply Pos.iter_add. Qed.

(** Rounding [k * 2^j] keeps the number when [k] has fewer than 53 bits:
    the bits that are shifted out are zeros. *)
Lemma binary_round_scaled (s : bool) (k jp : positive) (ez : Z) :
  (digits2_pos k < 53)%positive ->
  -1000 <= ez -> Zpos jp + ez <= 900 ->
  binary_round prec emax s (Pos.iter xO k jp) ez
  = S754_finite s (Pos.iter xO k (53 - digits2_pos k))
                (Zpos (digits2_pos k) - 53 + (Zpos jp + ez)).
Proof.
  intros Hd Hlo Hhi. unfold binary_round, shl_align.
  rewrite digits2_pos_iter_xO, fexp_normal by lia.
  destruct (Z.pos (digits2_pos k + jp) + ez - 53 - ez) as [|t|t] eqn:E.
  - assert (jp = 53 - digits2_pos k)%positive as -> by lia.
    rewrite binary_round_aux_exact; [f_equal; lia | rewrite digits2_pos_iter_xO; lia | lia].
  - unfold binary_round_aux, shr_fexp. cbn [Zdigits2 shr_record_of_loc].
    rewrite digits2_pos_iter_xO, fexp_normal by lia. rewrite E. cbn [shr].
    assert (iter_pos shr_1 t (Build_shr_record (Zpos (Pos.iter xO k jp)) false false)
            = Build_shr_record (Zpos (Pos.iter xO k (53 - digits2_pos k))) false false)
      as Hs.
    { assert (jp = t + (53 - digits2_pos k))%positive as -> by lia.
      rewrite <- iter_xO_add. apply shr_zeros. }
    rewrite !Hs.
    cbn [shr_m loc_of_shr_record round_nearest_even Zdigits2 shr_record_of_loc].
    rewrite digits2_pos_iter_xO, fexp_normal by lia.
    replace (Z.pos (digits2_pos k + (53 - digits2_pos k)) + (ez + Z.pos t) - 53
             - (ez + Z.pos t)) with 0 by lia.
    cbn [shr shr_m].
    replace (ez + Z.pos t <=? emax - prec) with true
      by (symmetry; apply Z.leb_le; unfold emax, prec; lia).
    f_equal. lia.
  - assert (t = 53 - digits2_pos k - jp)%positive as -> by lia.
    rewrite iter_xO_add.
    replace (53 - digits2_pos k - jp + jp)%positive with (53 - digits2_pos k)%positive by lia.
    rewrite binary_round_aux_exact; [f_equal; lia | rewrite digits2_pos_iter_xO; lia | lia].
Qed.

Lemma binary_normalize_scaled (n : Z) (jp : positive) (ez : Z) :
  - 2 ^ 52 < n < 2 ^ 52 ->
  -1000 <= ez -> Zpos jp + ez <= 900 ->
  binary_normalize prec emax (n * 2 ^ Zpos jp) ez false = normal_form n (Zpos jp + ez).
Proof.
  intros Hn Hlo Hhi. destruct n as [|m|m].
  - reflexivity.
  - replace (Zpos m * 2 ^ Zpos jp) with (Zpos (Pos.iter xO m jp))
      by apply Zpos_iter_xO.
    cbn [binary_normalize normal_form]. apply binary_round_scaled; try lia.
    pose proof (digits2_pos_small m 52 ltac:(lia) ltac:(lia)). lia.
  - replace (Zneg m * 2 ^ Zpos jp) with (Zneg (Pos.iter xO m jp))
      by (rewrite <- !Pos2Z.opp_pos, Zpos_iter_xO; lia).
    cbn [binary_normalize normal_form]. apply binary_round_scaled; try lia.
    pose proof (digits2_pos_small m 52 ltac:(lia) ltac:(lia)). lia.
Qed.

Lemma shl_align_fst (mx : positive) (ex ez : Z) :
  ez <= ex -> Zpos (fst (shl_align mx ex ez)) = Zpos mx * 2 ^ (ex - ez).
Proof.
  intros H. unfold shl_align.
  destruct (ez - ex) as [|d|d] eqn:E; cbn [fst]; try lia.
  - replace (ex - ez) with 0 by lia. lia.
  - rewrite Zpos_iter_xO. f_equal. f_equal. lia.
Qed.

(** The mantissa of a normal form, brought to the exponent [ez]. *)
Lemma normal_mantissa_aligned (s : bool) (m : positive) (e ez : Z) :
  (digits2_pos m < 53)%positive ->
  ez <= Zpos (digits2_pos m) - 53 + e ->
  cond_Zopp s (Zpos (fst (shl_align (Pos.iter xO m (53 - digits2_pos m))
                                    (Zpos (digits2_pos m) - 53 + e) ez)))
  = cond_Zopp s (Zpos m) * 2 ^ (e - ez).
Proof.
  intros Hd He. rewrite shl_align_fst by assumption.
  rewrite Zpos_iter_xO.
  replace (e - ez) with (Zpos (53 - digits2_pos m) + (Zpos (digits2_pos m) - 53 + e - ez)) by lia.
  rewrite Z.pow_add_r by lia.
  destruct s; unfold cond_Zopp; lia.
Qed.

Lemma SFadd_finite (s1 s2 : bool) (m1 m2 : positive) (e : Z) :
  Zpos m1 < 2 ^ 51 -> Zpos m2 < 2 ^ 51 -> -900 <= e <= 900 ->
  SFadd prec emax
    (S754_finite s1 (Pos.iter xO m1 (53 - digits2_pos m1)) (Zpos (digits2_pos m1) - 53 + e))
    (S754_finite s2 (Pos.iter xO m2 (53 - digits2_pos m2)) (Zpos (digits2_pos m2) - 53 + e))
  = normal_form (cond_Zopp s1 (Zpos m1) + cond_Zopp s2 (Zpos m2)) e.
Proof.
  intros H1 H2 He.
  pose proof (digits2_pos_small m1 51 ltac:(lia) H1) as Hd1.
  pose proof (digits2_pos_small m2 51 ltac:(lia) H2) as Hd2.
  cbn [SFadd].
  set (ez := Z.min (Zpos (digits2_pos m1) - 53 + e) (Zpos (digits2_pos m2) - 53 + e)).
  rewrite !normal_mantissa_aligned by lia.
  rewrite <- Z.mul_add_distr_r.
  destruct (e - ez) as [|jp|jp] eqn:E; try lia.
  transitivity (normal_form (cond_Zopp s1 (Zpos m1) + cond_Zopp s2 (Zpos m2))
                            (Zpos jp + ez)); [|f_equal; lia].
  apply binary_normalize_scaled; [|lia|lia].
  change (2 ^ 51) with 2251799813685248 in *.
  change (2 ^ 52) with 4503599627370496.
  destruct s1, s2; unfold cond_Zopp; lia.
Qed.

(** Adding two binary64 numbers [n1 * 2^e] and [n2 * 2^e] with integers of
    at most 51 bits gives [(n1 + n2) * 2^e], without rounding. *)
Lemma SFadd_normal (n1 n2 e : Z) :
  - 2 ^ 51 < n1 < 2 ^ 51 -> - 2 ^ 51 < n2 < 2 ^ 51 -> -900 <= e <= 900 ->
  SFadd prec emax (normal_form n1 e) (normal_form n2 e) = normal_form (n1 + n2) e.
Proof.
  intros H1 H2 He.
  destruct n1 as [|m1|m1], n2 as [|m2|m2]; try reflexivity; unfold normal_form at 1 2.
  - apply (SFadd_finite false false); lia.
  - apply (SFadd_finite false true); lia.
  - apply (SFadd_finite true false); lia.
  - apply (SFadd_finite true true); lia.
Qed.

Lemma fixed_point_normal (n f : Z) :
  - 2 ^ 52 < n < 2 ^ 52 -> f = 15 \/ f = 6 ->
  fixed_point n f = normal_form n (- f).
Proof.
  intros Hn Hf. unfold fixed_point.
  rewrite binary_normalize_small, py_float_pow2 by assumption.
  destruct n as [|m|m]; [reflexivity| |];
    pose proof (digits2_pos_small m 52 ltac:(lia) ltac:(lia)) as Hd;
    (rewrite SFdiv_pow2; [| rewrite digits2_pos_iter_xO; lia | lia]);
    cbn [normal_form]; f_equal; lia.
Qed.

Lemma normal_form_represents (n f : Z) :
  - 2 ^ 52 < n < 2 ^ 52 -> 0 <= f ->
  represents (normal_form n (- f)) n f.
Proof.
  intros Hn Hf. destruct n as [|m|m]; cbn [normal_form].
  - exists (0 # 1)%Q. split; [reflexivity|]. unfold Qdiv. now rewrite Qmult_0_l.
  - pose proof (digits2_pos_small m 52 ltac:(lia) ltac:(lia)) as Hd.
    eexists. split; [reflexivity|].
    replace (Zpos (digits2_pos m) - 53 + - f) with (- Zpos (53 - digits2_pos m) - f) by lia.
    now apply (dyadic_value false).
  - pose proof (digits2_pos_small m 52 ltac:(lia) ltac:(lia)) as Hd.
    eexists. split; [reflexivity|].
    replace (Zpos (digits2_pos m) - 53 + - f) with (- Zpos (53 - digits2_pos m) - f) by lia.
    now apply (dyadic_value true).
Qed.

Lemma represents_opp (x : float) (n f : Z) :
  0 <= f -> represents x n f -> represents (SFopp x) (- n) f.
Proof.
  intros Hf (q & Hq & Heq).
  pose proof (Z.pow_pos_nonneg 2 f ltac:(lia) Hf) as Hp.
  assert (~ inject_Z (2 ^ f) == 0)%Q as Hnz.
  { unfold Qeq; simpl. rewrite Z.mul_1_r. lia. }
  exists (- q)%Q. split.
  - destruct x as [s | s | | s m e]; cbn [float_value SFopp] in *; try discriminate.
    + injection Hq as <-. reflexivity.
    + injection Hq as <-. f_equal.
      destruct s; cbn [negb cond_Zopp]; unfold Qopp, Qmult, inject_Z; cbn [Qnum Qden];
        f_equal; lia.
  - rewrite Heq, inject_Z_opp. field. assumption.
Qed.

(** X11: for the packet built from any 29-byte buffer, the rotations of
    the converted record are exact: with [n] the signed 24-bit pan field,
    the yaw is the float that stands for [-(n / 2^15 + 90)], the addition
    of 90 and the negation round nothing, so the yaw lies in [-346, 167);
    pitch and roll are the tilt and roll fields over [2^15]. *)
Theorem converted_rotations_exact
    (Clock FrameRate Timecode : Type)
    (getSystemTimecodeAsFrames : Clock -> FrameRate -> Timecode)
    (self : FreeDCaptureThread FrameRate Timecode) (now : Clock)
    (buf : list byte) :
  length buf = 29%nat ->
  exists a data pitch yaw roll,
    snd (FreeDPacket_init buf) = Ok (Attrs a)
    /\ packageFrameData getSystemTimecodeAsFrames self now (Attrs a) = Ok data
    /\ dict_get data TRACKING_PITCH = Some (VFloat pitch)
    /\ dict_get data TRACKING_YAW = Some (VFloat yaw)
    /\ dict_get data TRACKING_ROLL = Some (VFloat roll)
    /\ represents pitch (field24 buf 5) 15
    /\ represents yaw (- (field24 buf 2 + 90 * 2 ^ 15)) 15
    /\ within yaw (-346) 167
    /\ represents roll (field24 buf 8) 15.
Proof.
  intros Hlen.
  destruct (FreeDPacket_init_fields buf Hlen)
    as (a & Ha & _ & E1 & E2 & E3 & _).
  pose proof (field24_range buf 2) as Hr.
  change (2 ^ 23) with 8388608 in Hr.
  assert (represents (SFopp (SFadd prec emax (rot_pan a) (float_of_Z 90)))
                     (- (field24 buf 2 + 90 * 2 ^ 15)) 15) as Hyaw.
  { apply represents_opp; [lia|].
    rewrite E1, fixed_point_normal
      by (auto; change (2 ^ 52) with 4503599627370496; lia).
    change (float_of_Z 90) with (normal_form (90 * 2 ^ 15) (- 15)).
    rewrite SFadd_normal
      by (change (2 ^ 51) with 2251799813685248; change (90 * 2 ^ 15) with 2949120; lia).
    apply (normal_form_represents (field24 buf 2 + 90 * 2 ^ 15) 15); [|lia].
    change (2 ^ 52) with 4503599627370496. change (90 * 2 ^ 15) with 2949120. lia. }
  exists a. eexists. exists (rot_tilt a), (SFopp (SFadd prec emax (rot_pan a) (float_of_Z 90))),
    (rot_roll a).
  split; [assumption|]. split; [reflexivity|].
  split; [reflexivity|]. split; [reflexivity|]. split; [reflexivity|].
  split; [rewrite E2; apply field24_represents; auto|].
  split; [exact Hyaw|].
  split; [|rewrite E3; apply field24_represents; auto].
  apply (represents_within _ (- (field24 buf 2 + 90 * 2 ^ 15)) 15); [lia | exact Hyaw |].
  change (90 * 2 ^ 15) with 2949120. change (2 ^ 15) with 32768. lia.
Qed.

Lemma converted_rotations_exact_witness :
  length extreme_frame = 29%nat
  /\ exists a data pitch yaw roll,
       snd (FreeDPacket_init extreme_frame) = Ok (Attrs a)
       /\ packageFrameData seconds_as_frames sample_thread 1 (Attrs a) = Ok data
       /\ dict_get data TRACKING_PITCH = Some (VFloat pitch)
       /\ dict_get data TRACKING_YAW = Some (VFloat yaw)
       /\ dict_get data TRACKING_ROLL = Some (VFloat roll)
       /\ represents pitch (field24 extreme_frame 5) 15
       /\ represents yaw (- (field24 extreme_frame 2 + 90 * 2 ^ 15)) 15
       /\ within yaw (-346) 167
       /\ represents roll (field24 extreme_frame 8) 15.
Proof.
  split; [reflexivity|].
  apply (converted_rotations_exact Z Z Z seconds_as_frames sample_thread 1 extreme_frame).
  reflexivity.
Defined.

(** ** Fields of other widths *)

Lemma int_from_bytes_signed_range (raw : list byte) :
  raw <> [] ->
  - 2 ^ (8 * Z.of_nat (length raw) - 1) <= int_from_bytes raw true
    < 2 ^ (8 * Z.of_nat (length raw) - 1).
Proof.
  intros Hne.
  pose proof (int_from_bytes_unsigned_range raw) as Hu.
  unfold int_from_bytes in *. cbn [andb] in *.
  set (u := int_from_bytes_unsigned raw) in *.
  set (L := Z.of_nat (length raw)) in *.
  assert (1 <= L) as HL.
  { subst L. destruct raw; [congruence | cbn [length]; lia]. }
  change 256 with (2 ^ 8) in Hu. rewrite <- Z.pow_mul_r in Hu by lia.
  remember (8 * L - 1) as k eqn:Hk.
  assert (0 <= k) as Hk0 by lia.
  replace (8 * L) with (k + 1) in Hu |- * by lia.
  rewrite testbit_top by lia.
  rewrite Z.pow_add_r, Z.pow_1_r in Hu |- * by lia.
  destruct (Z.ltb_spec u (2 ^ k)); cbn [negb]; lia.
Qed.


